(** * QComponent: option templates, build lifecycle, pins and geometry queries

    A shallow embedding of [qiskit_metal/components/base/base.py].

    - Python dictionaries are insertion-ordered association lists; nested
      dictionaries live in a heap of dictionary objects, addressed by
      location, so that sharing and [deepcopy] can be stated.
    - Classes carry what the option resolver reads from them: their name,
      the [default_options] of their own body, and their [__mro__].
    - Methods that mutate the design or the component thread an explicit
      [World]; an exception is an [outcome] next to the state it leaves.
    - numpy's float64 arithmetic is Rocq's binary64 [float]. *)

From Stdlib Require Import ZArith Floats.
From stdpp Require Import gmap strings list.

(** ** Python values used in option dictionaries *)

Definition loc := positive.

(** An option value is a string or a reference to a nested dictionary. *)
Inductive val :=
  | VStr (s : string)
  | VRef (l : loc).

#[global] Instance val_eq_dec : EqDecision val.
Proof. solve_decision. Defined.

(** The items of a dictionary, in insertion order. *)
Abbreviation dictobj := (list (string * val)).

(** [d[k]], as [d.get(k)]. *)
Fixpoint dict_get (d : dictobj) (k : string) : option val :=
  match d with
  | [] => None
  | (k', v) :: r => if decide (k' = k) then Some v else dict_get r k
  end.

(** [d[k] = v]: an existing key keeps its position, a new one goes last. *)
Fixpoint dict_set (d : dictobj) (k : string) (v : val) : dictobj :=
  match d with
  | [] => [(k, v)]
  | (k', v') :: r =>
      if decide (k' = k) then (k', v) :: r else (k', v') :: dict_set r k v
  end.

(** [d.update(other)] on plain dictionaries: item by item. *)
Definition dict_update (d other : dictobj) : dictobj :=
  fold_left (fun acc kv => dict_set acc kv.1 kv.2) other d.

(** The dictionary display [{**a, **b}]: a new dictionary receives the
    items of [a], then those of [b]. *)
Definition dict_display (a b : dictobj) : dictobj :=
  dict_update (dict_update [] a) b.

(** Truth value of a dictionary: empty is false. *)
Definition dict_truthy (d : dictobj) : bool :=
  match d with [] => false | _ => true end.

(** ** Classes and the option resolver *)

(** A class object: [__module__], [__name__], the [default_options] its
    body defines (if it defines one), and the rest of its [__mro__]. *)
#[warnings="-register-all"]
Inductive pyclass := PyClass {
  cls_module : string;
  cls_name : string;
  own_default_options : option dictobj;
  mro_tail : list pyclass
}.

(** [inspect.getmro(cls)]: the class first, [object] last. *)
Definition getmro (cls : pyclass) : list pyclass := cls :: mro_tail cls.

(** Attribute lookup walks the MRO of the class it is asked on. *)
Fixpoint find_default_options (mro : list pyclass) : option dictobj :=
  match mro with
  | [] => None
  | c :: r =>
      match own_default_options c with
      | Some d => Some d
      | None => find_default_options r
      end
  end.

(** [child.default_options] when [hasattr(child, 'default_options')]. *)
Definition getattr_default_options (child : pyclass) : option dictobj :=
  find_default_options (getmro child).

(** The slice [l[start::-1]]. *)
Definition slice_down {A} (l : list A) (start : Z) : list A :=
  let n := Z.of_nat (length l) in
  let s := if (start <? 0)%Z then (start + n)%Z else start in
  if (s <? 0)%Z then [] else rev (take (S (Z.to_nat (Z.min s (n - 1)))) l).

(** [QComponent._gather_all_children_options]. *)
Definition _gather_all_children_options (cls : pyclass) : dictobj :=
  let parents := getmro cls in
  fold_left
    (fun options_from_children child =>
       match getattr_default_options child with
       | Some d => dict_display options_from_children d
       | None => options_from_children
       end)
    (slice_down parents (Z.of_nat (length parents) - 2)) [].

(** [QComponent._get_unique_class_name]. *)
Definition _get_unique_class_name (cls : pyclass) : string :=
  cls_module cls +:+ "." +:+ cls_name cls.

(** The resolver as the specification words it: the successive merge, base
    to derived, of what each class of the chain defines itself.  [object],
    last in the MRO, is left out. *)
Definition merge_own_defaults (cls : pyclass) : dictobj :=
  fold_left
    (fun acc c =>
       match own_default_options c with
       | Some d => dict_display acc d
       | None => acc
       end)
    (rev (removelast (getmro cls))) [].


(** Single inheritance: the MRO of every class of the chain is the chain
    from that class on. *)
Fixpoint single_inheritance (mro : list pyclass) : Prop :=
  match mro with
  | [] => True
  | c :: r => mro_tail c = r ∧ single_inheritance r
  end.


(** One step of the merges above. *)
Definition step_own (c : pyclass) (acc : dictobj) : dictobj :=
  match own_default_options c with
  | Some d => dict_display acc d
  | None => acc
  end.

Definition step_attr (c : pyclass) (acc : dictobj) : dictobj :=
  match getattr_default_options c with
  | Some d => dict_display acc d
  | None => acc
  end.

(** ** Exceptions *)

(** The exceptions of the methods below; [UserError] is whatever a
    component's [make] raises, and [InvalidReference] the answer to an
    address that denotes no object, which no Python state has. *)
Inductive exn :=
  | AssertionError (msg : string)
  | NotImplementedError
  | RecursionError
  | KeyError (key : string)
  | UserError (msg : string)
  | InvalidReference.

(** How a call ends: with a value, or with an exception. *)
Inductive outcome (A : Type) :=
  | Normal (a : A)
  | Raised (e : exn).
Arguments Normal {A} a.
Arguments Raised {A} e.

(** ** Pins *)

(** A point or a vector of the plane, in numpy's float64. *)
Abbreviation vec := (float * float)%type.

Definition vec_sub (a b : vec) : vec := (a.1 - b.1, a.2 - b.2)%float.
Definition vec_add (a b : vec) : vec := (a.1 + b.1, a.2 + b.2)%float.
Definition vec_div (a : vec) (s : float) : vec := (a.1 / s, a.2 / s)%float.
Definition vec_neg (a : vec) : vec := (- a.1, - a.2)%float.
Definition vec_dot (a b : vec) : float := (a.1 * b.1 + a.2 * b.2)%float.
(** [np.linalg.norm]. *)
Definition vec_norm (a : vec) : float := PrimFloat.sqrt (a.1 * a.1 + a.2 * a.2)%float.

(** Modelled from the spec: [draw.Vector.two_points_described] is not under
    [src/].  The pin registry "computes direction vector, unit direction
    (tangent), and a unit vector orthogonal to it (normal)"; the orthogonal
    is taken a quarter turn counter-clockwise from the tangent. *)
Definition two_points_described (p0 p1 : vec) : vec * vec * vec :=
  let distance_vec := vec_sub p1 p0 in
  let unit_vec := vec_div distance_vec (vec_norm distance_vec) in
  let normal_vec := ((- unit_vec.2)%float, unit_vec.1) in
  (distance_vec, unit_vec, normal_vec).

(** The dictionary [make_pin] returns. *)
Record Pin := {
  points : list vec;
  middle : vec;
  normal : vec;
  tangent : vec;
  width : float;
  chip : string;
  parent_name : string;
  net_id : Z
}.

(** [QComponent.make_pin]: [middle] is [np.sum(points, axis=0)/2.]. *)
Definition make_pin (points : list vec) (parent_name : string)
    (flip : bool) (chip : string) : outcome Pin :=
  match points with
  | [p0; p1] =>
      let '(vec_dist, vec_dist_unit, vec_normal) := two_points_described p0 p1 in
      let vec_normal := if flip then vec_neg vec_normal else vec_normal in
      Normal {| points := points;
                middle := vec_div (vec_add p0 p1) 2;
                normal := vec_normal;
                tangent := vec_dist_unit;
                width := vec_norm vec_dist;
                chip := chip;
                parent_name := parent_name;
                net_id := 0 |}
  | _ => Raised (AssertionError "")
  end.

(** The attributes of a component object that hold state; [_design], the
    one design of the [World] below, is not repeated in it. *)
Record QComponent := {
  _name : string;
  _id : Z;
  _class_name : string;
  options : loc;
  metadata : loc;
  status : string;
  _connector_names : list string;
  _made : bool;
  pins : list (string * Pin)
}.

(** ** The heap of dictionary objects *)

(** An option value, read through the heap down to its strings. *)
#[warnings="-register-all"]
Inductive tree :=
  | TStr (s : string)
  | TDict (items : list (string * tree)).

(** [n] bounds the nesting followed; a dangling reference reads as nothing. *)
Fixpoint read (n : nat) (h : gmap loc dictobj) (v : val) : option tree :=
  match v with
  | VStr s => Some (TStr s)
  | VRef l =>
      match n with
      | 0 => None
      | S n' =>
          es ← h !! l;
          TDict <$> mapM (fun kv : string * val => pair kv.1 <$> read n' h kv.2) es
      end
  end.

(** [h'] holds every object of [h], unchanged. *)
Definition heap_extends (h h' : gmap loc dictobj) : Prop :=
  ∀ l es, h !! l = Some es → h' !! l = Some es.

(** A value, and the items of a dictionary, that refer to objects of [h]. *)
Definition val_ok (h : gmap loc dictobj) (v : val) : Prop :=
  match v with
  | VStr _ => True
  | VRef l => is_Some (h !! l)
  end.

Definition dict_ok (h : gmap loc dictobj) (es : dictobj) : Prop :=
  Forall (fun kv => val_ok h kv.2) es.

(** No dangling reference. *)
Definition heap_closed (h : gmap loc dictobj) : Prop :=
  map_Forall (fun _ es => dict_ok h es) h.

#[global] Instance val_ok_dec h v : Decision (val_ok h v).
Proof. destruct v; simpl; apply _. Defined.

#[global] Instance dict_ok_dec h es : Decision (dict_ok h es).
Proof. unfold dict_ok. apply _. Defined.

#[global] Instance heap_closed_dec h : Decision (heap_closed h).
Proof. unfold heap_closed. apply _. Defined.

(** [l'] is a value of the dictionary [l]; [reach h l l']: [l'] is [l] or
    a dictionary nested in it, at any depth. *)
Definition edge (h : gmap loc dictobj) (l l' : loc) : Prop :=
  ∃ es k, h !! l = Some es ∧ (k, VRef l') ∈ es.

Definition reach (h : gmap loc dictobj) : loc → loc → Prop := rtc (edge h).

(** A new dictionary object holding [es]. *)
Definition alloc (es : dictobj) (h : gmap loc dictobj) : loc * gmap loc dictobj :=
  let l := fresh (dom h) in (l, <[l := es]> h).

(** The items of a dictionary copied one by one with [f], threading the
    heap and the memo. *)
Fixpoint copy_items
    (f : val → gmap loc dictobj → gmap loc loc →
         option (val * gmap loc dictobj * gmap loc loc))
    (es : dictobj) (h : gmap loc dictobj) (m : gmap loc loc)
    : option (dictobj * gmap loc dictobj * gmap loc loc) :=
  match es with
  | [] => Some ([], h, m)
  | (k, v) :: r =>
      match f v h m with
      | None => None
      | Some (v', h1, m1) =>
          match copy_items f r h1 m1 with
          | None => None
          | Some (r', h2, m2) => Some ((k, v') :: r', h2, m2)
          end
      end
  end.

(** [copy.deepcopy(v, memo)]: a string is returned as it is; a dictionary
    already in the memo gives its copy; otherwise a new dictionary is
    created, entered in the memo, and filled with the copies of the items.
    [fuel] bounds the nesting that can be followed; [None] stands for
    [RecursionError]. *)
Fixpoint deepcopy_val (fuel : nat) (v : val) (h : gmap loc dictobj)
    (m : gmap loc loc) : option (val * gmap loc dictobj * gmap loc loc) :=
  match v with
  | VStr s => Some (VStr s, h, m)
  | VRef l =>
      match m !! l with
      | Some l' => Some (VRef l', h, m)
      | None =>
          match fuel with
          | 0 => None
          | S n =>
              match h !! l with
              | None => None
              | Some es =>
                  let l' := fresh (dom h) in
                  match copy_items (deepcopy_val n) es (<[l' := []]> h) (<[l := l']> m) with
                  | None => None
                  | Some (es', h2, m2) => Some (VRef l', <[l' := es']> h2, m2)
                  end
              end
          end
      end
  end.

(** [deepcopy(x)] of the dictionary at [l]. *)
Definition deepcopy (fuel : nat) (l : loc) (h : gmap loc dictobj)
    : option (loc * gmap loc dictobj) :=
  match deepcopy_val fuel (VRef l) h ∅ with
  | Some (VRef l', h', _) => Some (l', h')
  | _ => None
  end.

(** ** Components and the design *)

(** The address of a component object. *)
Definition addr := positive.

(** Calls received by the collaborators, in order; [CallMake] marks the
    invocation of the component's [make]. *)
Inductive call :=
  | CallGetNewId
  | CallDeleteComponent (id : Z)
  | CallCheckElementType (kind : string)
  | CallGetComponentGeometryDict (id : Z) (kind : string)
  | CallGetComponent (id : Z) (kind : string)
  | CallLoggerError (logger : string) (msg : string)
  | CallMake (self : addr).

(** The state the methods act on: the dictionaries, the design's
    [template_options] and [components], the component objects, the state
    of the collaborators ([Ext], opaque) and the calls they received. *)
Record World (Ext : Type) := {
  heap : gmap loc dictobj;
  template_options : gmap string loc;
  components : gmap Z addr;
  objects : gmap addr QComponent;
  ext : Ext;
  calls : list call
}.
Arguments heap {Ext} w.
Arguments template_options {Ext} w.
Arguments components {Ext} w.
Arguments objects {Ext} w.
Arguments ext {Ext} w.
Arguments calls {Ext} w.

(** The state with one field replaced. *)
Definition set_heap {Ext} (h : gmap loc dictobj) (w : World Ext) : World Ext :=
  {| heap := h; template_options := template_options w;
     components := components w; objects := objects w;
     ext := ext w; calls := calls w |}.

Definition set_template_options {Ext} (t : gmap string loc) (w : World Ext) : World Ext :=
  {| heap := heap w; template_options := t;
     components := components w; objects := objects w;
     ext := ext w; calls := calls w |}.

Definition set_components {Ext} (c : gmap Z addr) (w : World Ext) : World Ext :=
  {| heap := heap w; template_options := template_options w;
     components := c; objects := objects w;
     ext := ext w; calls := calls w |}.

Definition set_objects {Ext} (o : gmap addr QComponent) (w : World Ext) : World Ext :=
  {| heap := heap w; template_options := template_options w;
     components := components w; objects := o;
     ext := ext w; calls := calls w |}.

Definition set_ext {Ext} (e : Ext) (w : World Ext) : World Ext :=
  {| heap := heap w; template_options := template_options w;
     components := components w; objects := objects w;
     ext := e; calls := calls w |}.

(** A collaborator receives the call [c]. *)
Definition log_call {Ext} (c : call) (w : World Ext) : World Ext :=
  {| heap := heap w; template_options := template_options w;
     components := components w; objects := objects w;
     ext := ext w; calls := calls w ++ [c] |}.

(** The component with one attribute replaced. *)
Definition set_id (id : Z) (c : QComponent) : QComponent :=
  {| _name := _name c; _id := id; _class_name := _class_name c;
     options := options c; metadata := metadata c; status := status c;
     _connector_names := _connector_names c; _made := _made c; pins := pins c |}.

Definition set_status (s : string) (c : QComponent) : QComponent :=
  {| _name := _name c; _id := _id c; _class_name := _class_name c;
     options := options c; metadata := metadata c; status := s;
     _connector_names := _connector_names c; _made := _made c; pins := pins c |}.

Definition set_made (b : bool) (c : QComponent) : QComponent :=
  {| _name := _name c; _id := _id c; _class_name := _class_name c;
     options := options c; metadata := metadata c; status := status c;
     _connector_names := _connector_names c; _made := b; pins := pins c |}.

(** [self.<attribute> = value] on the object at [self]. *)
Definition update_object {Ext} (self : addr) (f : QComponent → QComponent)
    (w : World Ext) : World Ext :=
  set_objects (alter f self (objects w)) w.

(** Truth value of an optional dictionary argument: [None] and the empty
    dictionary are false. *)
Definition truthy {Ext} (w : World Ext) (d : option loc) : bool :=
  match d with
  | None => false
  | Some l =>
      match heap w !! l with
      | Some es => dict_truthy es
      | None => false
      end
  end.

(** The line break of the logger's message. *)
Definition newline : string := String (Ascii.ascii_of_nat 10) EmptyString.

(** ** Renaming along a memo, and the invariant of a copy in progress *)

(** The value [v] with its reference replaced by its copy in the memo. *)
Definition ren_val (m : gmap loc loc) (v : val) : val :=
  match v with
  | VStr s => VStr s
  | VRef l => match m !! l with Some l' => VRef l' | None => VRef l end
  end.

Definition ren_item (m : gmap loc loc) (kv : string * val) : string * val :=
  (kv.1, ren_val m kv.2).

(** The reference of [v], if it is one, has its copy in the memo. *)
Definition val_in (m : gmap loc loc) (v : val) : Prop :=
  match v with
  | VStr _ => True
  | VRef l => is_Some (m !! l)
  end.

(** The heap [h] and the memo [m] in the course of a [deepcopy] started on
    the heap [h0]; [P] are the dictionaries whose copy is created and not
    yet filled.  The old objects are untouched; the memo sends old objects
    to new ones, one to one; a copy that is filled holds the items of its
    original, renamed along the memo; every new object is a copy. *)
Record copy_inv (h0 h : gmap loc dictobj) (m : gmap loc loc) (P : gset loc) : Prop := {
  ci_ext : heap_extends h0 h;
  ci_src : ∀ l l', m !! l = Some l' →
             is_Some (h0 !! l) ∧ h0 !! l' = None ∧ is_Some (h !! l');
  ci_inj : ∀ l1 l2 l', m !! l1 = Some l' → m !! l2 = Some l' → l1 = l2;
  ci_done : ∀ l l', m !! l = Some l' → l ∉ P →
             ∃ es, h0 !! l = Some es ∧ h !! l' = Some (ren_item m <$> es) ∧
                   Forall (fun kv => val_in m kv.2) es;
  ci_new : ∀ l', h0 !! l' = None → is_Some (h !! l') → ∃ l, m !! l = Some l'
}.

(** What [deepcopy_val] keeps, whatever the fuel. *)
Definition copier_ok (h0 : gmap loc dictobj)
    (f : val → gmap loc dictobj → gmap loc loc →
         option (val * gmap loc dictobj * gmap loc loc)) : Prop :=
  ∀ v h m P v' h' m',
    copy_inv h0 h m P → val_ok h0 v → f v h m = Some (v', h', m') →
    copy_inv h0 h' m' P ∧ m ⊆ m' ∧ v' = ren_val m' v ∧ val_in m' v.

(** The items [es] read as a dictionary. *)
Definition read_dict (n : nat) (h : gmap loc dictobj) (es : dictobj) : option tree :=
  TDict <$> mapM (fun kv : string * val => pair kv.1 <$> read n h kv.2) es.

(** The collaborators of the component, none of them under [src/]:
    - [is_design], of the package, on whatever the caller passes as design;
    - the constructor and [update] of [toolbox_python.attr_dict.Dict];
    - the nesting [deepcopy] can follow before [RecursionError];
    - the design's id allocator and its geometry tables ([design.elements]),
      acting on the opaque state [Ext];
    - [make], which every component class supplies.
    Apart from [make], which may raise, they are taken to return. *)
Class Collaborators := {
  PyObj : Type;
  is_design : PyObj → bool;
  Dict_new : loc → gmap loc dictobj → loc * gmap loc dictobj;
  Dict_update : loc → loc → gmap loc dictobj → gmap loc dictobj;
  recursion_limit : nat;
  Ext : Type;
  Table : Type;
  _get_new_qcomponent_id : Ext → Z * Ext;
  delete_component : Z → Ext → Ext;
  check_element_type : string → Ext → bool;
  get_component_geometry_dict : Z → string → Ext → Table;
  get_component : Z → string → Ext → Table;
  make : addr → World Ext → outcome unit * World Ext
}.

(** [QComponent._register_class_with_design]. *)
Definition _register_class_with_design {C : Collaborators} (cls : pyclass)
    (template_key : string) (component_template : option loc)
    (w : World Ext) : outcome unit * World Ext :=
  match template_options w !! template_key with
  | Some _ => (Normal (), w)
  | None =>
      let '(component_template, w) :=
        match component_template with
        | Some l =>
            if truthy w (Some l) then (l, w)
            else
              let '(l', h') := alloc (_gather_all_children_options cls) (heap w) in
              (l', set_heap h' w)
        | None =>
            let '(l', h') := alloc (_gather_all_children_options cls) (heap w) in
            (l', set_heap h' w)
        end in
      match deepcopy recursion_limit component_template (heap w) with
      | None => (Raised RecursionError, w)
      | Some (t, h') =>
          (Normal (),
           set_template_options (<[template_key := t]> (template_options w))
             (set_heap h' w))
      end
  end.

(** The key [get_template_options] works with. *)
Definition resolve_key (cls : pyclass) (template_key : option string) : string :=
  match template_key with
  | None => _get_unique_class_name cls
  | Some k => k
  end.

(** [QComponent.get_template_options]. *)
Definition get_template_options {C : Collaborators} (cls : pyclass)
    (component_template : option loc) (logger_ : option string)
    (template_key : option string) (w : World Ext) : outcome loc * World Ext :=
  let template_key := resolve_key cls template_key in
  let '(r, w) :=
    match template_options w !! template_key with
    | None => _register_class_with_design cls template_key component_template w
    | Some _ => (Normal (), w)
    end in
  match r with
  | Raised e => (Raised e, w)
  | Normal _ =>
      let w :=
        match template_options w !! template_key with
        | None =>
            log_call
              (CallLoggerError (default "design.logger" logger_)
                 ("ERROR in the creating component " +:+ cls_name cls +:+ "!"
                  +:+ newline
                  +:+ "The default options for the component class "
                  +:+ cls_name cls +:+ " are missing")) w
        | Some _ => w
        end in
      match template_options w !! template_key with
      | None => (Raised (KeyError template_key), w)
      | Some t =>
          let '(d, h) := Dict_new t (heap w) in
          match deepcopy recursion_limit d h with
          | None => (Raised RecursionError, set_heap h w)
          | Some (options, h) => (Normal options, set_heap h w)
          end
      end
  end.

(** [QComponent._add_to_design], on the object under construction: it gets
    its id and becomes an object of the design. *)
Definition _add_to_design {C : Collaborators} (c : QComponent) (w : World Ext)
    : addr * World Ext :=
  let '(id, e) := _get_new_qcomponent_id (ext w) in
  let w := log_call CallGetNewId (set_ext e w) in
  let self := fresh (dom (objects w)) in
  (self,
   set_components (<[id := self]> (components w))
     (set_objects (<[self := set_id id c]> (objects w)) w)).

(** [QComponent.do_make], also bound as [rebuild]. *)
Definition do_make {C : Collaborators} (self : addr) (w : World Ext)
    : outcome unit * World Ext :=
  let w := update_object self (set_status "failed") w in
  match objects w !! self with
  | None => (Raised InvalidReference, w)
  | Some c =>
      if _made c then
        let w := log_call (CallDeleteComponent (_id c))
                   (set_ext (delete_component (_id c) (ext w)) w) in
        match make self (log_call (CallMake self) w) with
        | (Raised e, w) => (Raised e, w)
        | (Normal _, w) => (Normal (), update_object self (set_status "good") w)
        end
      else
        match make self (log_call (CallMake self) w) with
        | (Raised e, w) => (Raised e, w)
        | (Normal _, w) =>
            let w := update_object self (set_made true) w in
            (Normal (), update_object self (set_status "good") w)
        end
  end.

Definition rebuild {C : Collaborators} := do_make.

(** The message of the constructor's assertion; the line continuation in
    the source keeps the indentation of its second line. *)
Definition invalid_design_message : string :=
  "Error you did not pass in a valid " +:+
  "        Metal Design object as a parent of this component.".

(** [QComponent.__init__]; the result is the new object.  The parser
    [self.p] has no state of its own and is left out. *)
Definition __init__ {C : Collaborators} (cls : pyclass) (design : PyObj)
    (name : string) (options : option loc) (make : bool)
    (component_template : option loc) (w : World Ext)
    : outcome addr * World Ext :=
  if negb (is_design design) then
    (Raised (AssertionError invalid_design_message), w)
  else
    match get_template_options cls component_template None None w with
    | (Raised e, w) => (Raised e, w)
    | (Normal self_options, w) =>
        let w :=
          match options with
          | Some o =>
              if truthy w (Some o)
              then set_heap (Dict_update self_options o (heap w)) w
              else w
          | None => w
          end in
        let '(self_metadata, h) := alloc [] (heap w) in
        let w := set_heap h w in
        let '(self, w) :=
          _add_to_design
            {| _name := name; _id := 0;
               _class_name := _get_unique_class_name cls;
               options := self_options; metadata := self_metadata;
               status := "not built"; _connector_names := [];
               _made := false; pins := [] |} w in
        if make then
          match do_make self w with
          | (Raised e, w) => (Raised e, w)
          | (Normal _, w) => (Normal self, w)
          end
        else (Normal self, w)
    end.

(** [QComponent.make] of the base class. *)
Definition QComponent_make {Ext} (self : addr) (w : World Ext)
    : outcome unit * World Ext :=
  (Raised NotImplementedError, w).

(** [QComponent.elements_dict]; [None] is Python's. *)
Definition elements_dict {C : Collaborators} (self : addr) (element_type : string)
    (w : World Ext) : outcome (option Table) * World Ext :=
  let w := log_call (CallCheckElementType element_type) w in
  if check_element_type element_type (ext w) then
    match objects w !! self with
    | None => (Raised InvalidReference, w)
    | Some c =>
        (Normal (Some (get_component_geometry_dict (_id c) element_type (ext w))),
         log_call (CallGetComponentGeometryDict (_id c) element_type) w)
    end
  else (Normal None, w).

(** [QComponent.elements_table]. *)
Definition elements_table {C : Collaborators} (self : addr) (element_type : string)
    (w : World Ext) : outcome (option Table) * World Ext :=
  let w := log_call (CallCheckElementType element_type) w in
  if check_element_type element_type (ext w) then
    match objects w !! self with
    | None => (Raised InvalidReference, w)
    | Some c =>
        (Normal (Some (get_component (_id c) element_type (ext w))),
         log_call (CallGetComponent (_id c) element_type) w)
    end
  else (Normal None, w).

(** ** What is assumed of the collaborators *)

(** The [Dict] constructor only creates objects. *)
Definition Dict_new_allocates {C : Collaborators} : Prop :=
  ∀ l h d h', Dict_new l h = (d, h') → heap_extends h h'.

(** The [Dict] built from a dictionary reads as that dictionary. *)
Definition Dict_new_copies {C : Collaborators} : Prop :=
  ∀ l h d h',
    heap_closed h → is_Some (h !! l) → Dict_new l h = (d, h') →
    heap_closed h' ∧ is_Some (h' !! d) ∧
    ∀ n, read n h' (VRef d) = read n h (VRef l).

(** [Dict.update] writes to the dictionary it is called on and to the
    dictionaries nested in it, to no other existing object. *)
Definition Dict_update_local {C : Collaborators} : Prop :=
  ∀ o other h l,
    is_Some (h !! l) → ¬ reach h o l → Dict_update o other h !! l = h !! l.

(** [make] draws the component: it leaves the object in place, and its
    [status], [_made] and [_id] as they are. *)
Definition make_keeps_status {C : Collaborators} : Prop :=
  ∀ self w r w' c,
    make self w = (r, w') → objects w !! self = Some c →
    ∃ c', objects w' !! self = Some c' ∧
          status c' = status c ∧ _made c' = _made c ∧ _id c' = _id c.

(** What [get_template_options] has to copy reads within the nesting [n]:
    the stored template; or, to register first, the explicit template, or
    the merged defaults where that one is missing or empty. *)
Definition copies_within {Ext} (n : nat) (cls : pyclass) (key : string)
    (component_template : option loc) (w : World Ext) : Prop :=
  match template_options w !! key with
  | Some t => is_Some (read n (heap w) (VRef t))
  | None =>
      if truthy w component_template
      then ∃ l, component_template = Some l ∧ is_Some (read n (heap w) (VRef l))
      else ∃ k, n = S k ∧
                is_Some (read_dict k (heap w) (_gather_all_children_options cls))
  end.

(** The state is well formed: no dangling reference, and the stored
    templates are objects. *)
Definition world_ok {Ext} (w : World Ext) : Prop :=
  heap_closed (heap w) ∧
  ∀ k t, template_options w !! k = Some t → is_Some (heap w !! t).


(** The state [do_make] invokes [make] on, and what it does to the state
    [make] returns normally with ([first]: on a first build). *)
Definition make_entry {C : Collaborators} (self : addr) (w : World Ext) : World Ext :=
  let w := update_object self (set_status "failed") w in
  match objects w !! self with
  | Some c =>
      if _made c then
        log_call (CallMake self)
          (log_call (CallDeleteComponent (_id c))
             (set_ext (delete_component (_id c) (ext w)) w))
      else log_call (CallMake self) w
  | None => w
  end.

Definition make_exit {Ext} (first : bool) (self : addr) (w : World Ext) : World Ext :=
  if first
  then update_object self (set_status "good") (update_object self (set_made true) w)
  else update_object self (set_status "good") w.

(** The pin [p] with [n] for normal. *)
Definition with_normal (n : vec) (p : Pin) : Pin :=
  {| points := points p; middle := middle p; normal := n;
     tangent := tangent p; width := width p; chip := chip p;
     parent_name := parent_name p; net_id := net_id p |}.

(** ** Two class hierarchies *)

(** A hierarchy with multiple inheritance:
<<
    class A(QComponent): default_options = dict(x='a')
    class K(QComponent): default_options = dict(x='k')
    class D(A): pass
    class C(D, K, A): default_options = dict(y='c')
>>
    Python's C3 linearisation gives [C.__mro__ = (C, D, K, A, QComponent,
    object)] and [D.__mro__ = (D, A, QComponent, object)]. *)
Module Diamond.
Definition cls_object : pyclass := PyClass "builtins" "object" None [].
Definition cls_QComponent : pyclass :=
  PyClass "qiskit_metal.components.base.base" "QComponent" None [cls_object].
Definition cls_A : pyclass :=
  PyClass "user" "A" (Some [("x", VStr "a")]) [cls_QComponent; cls_object].
Definition cls_K : pyclass :=
  PyClass "user" "K" (Some [("x", VStr "k")]) [cls_QComponent; cls_object].
Definition cls_D : pyclass :=
  PyClass "user" "D" None [cls_A; cls_QComponent; cls_object].
Definition cls_C : pyclass :=
  PyClass "user" "C" (Some [("y", VStr "c")])
    [cls_D; cls_K; cls_A; cls_QComponent; cls_object].
End Diamond.

(** A single-inheritance chain, [TransmonPocket(Tagged)],
    [Tagged(BaseQubit)], [BaseQubit(QComponent)], where [Tagged] defines no
    [default_options]. *)
Module Chain.
Definition cls_object : pyclass := PyClass "builtins" "object" None [].
Definition cls_QComponent : pyclass :=
  PyClass "qiskit_metal.components.base.base" "QComponent" None [cls_object].
Definition cls_BaseQubit : pyclass :=
  PyClass "qiskit_metal.components.base.qubit" "BaseQubit"
    (Some [("pos_x", VStr "0um"); ("pos_y", VStr "0um"); ("connection_pads", VRef 1%positive)])
    [cls_QComponent; cls_object].
Definition cls_Tagged : pyclass :=
  PyClass "user" "Tagged" None [cls_BaseQubit; cls_QComponent; cls_object].
Definition cls_TransmonPocket : pyclass :=
  PyClass "qiskit_metal.components.qubits.transmon_pocket" "TransmonPocket"
    (Some [("pos_x", VStr "1mm"); ("pad_gap", VStr "30um")])
    [cls_Tagged; cls_BaseQubit; cls_QComponent; cls_object].
End Chain.

(** ** A small design to run the methods on *)

Module Example.

(** What a caller may pass as [design]. *)
Inductive obj := DesignObj | NotADesign.

(** A [Dict] constructor that copies the top level. *)
Definition shallow_Dict (l : loc) (h : gmap loc dictobj) : loc * gmap loc dictobj :=
  alloc (default [] (h !! l)) h.

(** [dict.update]. *)
Definition plain_update (o other : loc) (h : gmap loc dictobj) : gmap loc dictobj :=
  match h !! o, h !! other with
  | Some d, Some e => <[o := dict_update d e]> h
  | _, _ => h
  end.

(** A [make] that asks the tables to check a kind and draws nothing. *)
Definition make_ok (self : addr) (w : World nat) : outcome unit * World nat :=
  (Normal (), log_call (CallCheckElementType "poly") w).

Definition collaborators
    (mk : addr → World nat → outcome unit * World nat) : Collaborators :=
  {| PyObj := obj;
     is_design := fun o => match o with DesignObj => true | NotADesign => false end;
     Dict_new := shallow_Dict;
     Dict_update := plain_update;
     recursion_limit := 1000;
     Ext := nat;
     Table := list string;
     _get_new_qcomponent_id := fun n => (Z.of_nat (S n), S n);
     delete_component := fun _ n => n;
     check_element_type := fun kind _ => bool_decide (kind ∈ ["poly"; "path"]);
     get_component_geometry_dict := fun _ _ _ => [];
     get_component := fun _ _ _ => [];
     make := mk |}.

(** A design with no template and no component; the dictionaries: the
    nested [connection_pads] of the class, an explicit template
    [{pad_gap: '5um', pads: {loc_W: '-1'}}], the empty dictionary, and the
    instance options [{pos_x: '2mm'}]. *)
Definition world1 : World nat :=
  {| heap := {[ 1%positive := [("loc_W", VStr "+1")];
               2%positive := [("pad_gap", VStr "5um"); ("pads", VRef 3%positive)];
               3%positive := [("loc_W", VStr "-1")];
               4%positive := [];
               5%positive := [("pos_x", VStr "2mm")] ]};
     template_options := ∅; components := ∅; objects := ∅;
     ext := 0; calls := [] |}.

Definition C_ok : Collaborators := collaborators make_ok.
Definition C_base : Collaborators := collaborators QComponent_make.

Definition cls : pyclass := Chain.cls_TransmonPocket.
Definition key : string :=
  "qiskit_metal.components.qubits.transmon_pocket.TransmonPocket".

(** [world1] after the class was registered with the explicit template. *)
Definition registered : World nat :=
  (_register_class_with_design (C := C_ok) cls key (Some 2%positive) world1).2.

(** [world1] after [get_template_options] with the explicit template. *)
Definition looked_up : World nat :=
  (get_template_options (C := C_ok) cls (Some 2%positive) None None world1).2.

(** [world1] after a component of the base class's [make] was created and
    not built, and after one of [make_ok] was created and built. *)
Definition created : World nat :=
  (__init__ (C := C_base) cls DesignObj "Q1" (Some 5%positive) false None world1).2.

Definition built : World nat :=
  (__init__ (C := C_ok) cls DesignObj "Q1" (Some 5%positive) true None world1).2.

Definition q1 (status : string) (made : bool) : QComponent :=
  {| _name := "Q1"; _id := 1; _class_name := key;
     options := 10%positive; metadata := 12%positive;
     status := status; _connector_names := []; _made := made; pins := [] |}.

End Example.

(** ** The pin registry, the geometry list and the class key *)

(** [self.pins[name]], as [self.pins.get(name)]. *)
Fixpoint pins_get (d : list (string * Pin)) (k : string) : option Pin :=
  match d with
  | [] => None
  | (k', p) :: r => if decide (k' = k) then Some p else pins_get r k
  end.

(** [self.pins[name] = pin]: an existing name keeps its position, a new one
    goes last. *)
Fixpoint pins_set (d : list (string * Pin)) (k : string) (p : Pin)
    : list (string * Pin) :=
  match d with
  | [] => [(k, p)]
  | (k', p') :: r =>
      if decide (k' = k) then (k', p) :: r else (k', p') :: pins_set r k p
  end.

Definition set_pins (ps : list (string * Pin)) (c : QComponent) : QComponent :=
  {| _name := _name c; _id := _id c; _class_name := _class_name c;
     options := options c; metadata := metadata c; status := status c;
     _connector_names := _connector_names c; _made := _made c; pins := ps |}.

(** [QComponent.get_pin]: [self.pins[name]]. *)
Definition get_pin {Ext} (self : addr) (name : string) (w : World Ext)
    : outcome Pin * World Ext :=
  match objects w !! self with
  | None => (Raised InvalidReference, w)
  | Some c =>
      match pins_get (pins c) name with
      | Some pin => (Normal pin, w)
      | None => (Raised (KeyError name), w)
      end
  end.

(** [QComponent.add_pin]: the pin is made first, then stored under [name];
    [parent] is passed on as it is, and taken to be a name. *)
Definition add_pin {Ext} (self : addr) (name : string) (points : list vec)
    (parent : string) (flip : bool) (chip : string) (w : World Ext)
    : outcome unit * World Ext :=
  match objects w !! self with
  | None => (Raised InvalidReference, w)
  | Some _ =>
      match make_pin points parent flip chip with
      | Raised e => (Raised e, w)
      | Normal pin =>
          (Normal (),
           update_object self (fun c => set_pins (pins_set (pins c) name pin) c) w)
      end
  end.

(** Two more collaborators, not under [src/]: the list of geometries
    [design.elements] hands out, a read that changes nothing and that
    [call] has no entry for, and [draw.mpl.render], which draws on the
    axes it is given. *)
Class GeometryLists (Ext : Type) := {
  Geometries : Type;
  Axes : Type;
  get_component_geometry_list : Z → string → Ext → Geometries;
  render : option Geometries → option Axes → dictobj → Ext → Ext
}.

(** [QComponent.elements_list]: ['all'] is accepted without asking the
    tables. *)
Definition elements_list {C : Collaborators} {G : GeometryLists Ext}
    (self : addr) (element_type : string) (w : World Ext)
    : outcome (option Geometries) * World Ext :=
  let '(known, w) :=
    if decide (element_type = "all") then (true, w)
    else (check_element_type element_type (ext w),
          log_call (CallCheckElementType element_type) w) in
  if known then
    match objects w !! self with
    | None => (Raised InvalidReference, w)
    | Some c =>
        (Normal (Some (get_component_geometry_list (_id c) element_type (ext w))), w)
    end
  else (Normal None, w).

(** [QComponent.elements_plot]: the [plot_kw] of the caller is replaced by
    an empty dictionary before it is used. *)
Definition elements_plot {C : Collaborators} {G : GeometryLists Ext}
    (self : addr) (ax : option Axes) (plot_kw : option dictobj) (w : World Ext)
    : outcome (option Geometries) * World Ext :=
  match elements_list self "all" w with
  | (Raised e, w) => (Raised e, w)
  | (Normal elements, w) =>
      let plot_kw : dictobj := [] in
      (Normal elements, set_ext (render elements ax plot_kw (ext w)) w)
  end.

(** [make] leaves the components of the design registered. *)
Definition make_keeps_registered {C : Collaborators} : Prop :=
  ∀ self w r w' id a,
    make self w = (r, w') → components w !! id = Some a →
    components w' !! id = Some a.

(** The name holds no dot, as the name of a class statement. *)
Fixpoint dot_free (s : string) : bool :=
  match s with
  | EmptyString => true
  | String a r => bool_decide (String a EmptyString ≠ ".") && dot_free r
  end.

(** The MRO of every class of the MRO lies within it, as C3 linearisation
    has it. *)
Definition mro_consistent (cls : pyclass) : Prop :=
  ∀ c, c ∈ getmro cls → getmro c ⊆ getmro cls.

(** A component class whose [make] adds two pins, and the design
    [Example.world1] with one component of it, created and not built. *)
Module Pads.

Definition make_pads (self : addr) (w : World nat) : outcome unit * World nat :=
  match add_pin self "a" [(0, 0); (2, 0)]%float "Q1" false "main" w with
  | (Raised e, w) => (Raised e, w)
  | (Normal _, w) => add_pin self "b" [(0, 1); (2, 1)]%float "Q1" true "main" w
  end.

(** A [make] that draws one point too many. *)
Definition make_bad (self : addr) (w : World nat) : outcome unit * World nat :=
  match add_pin self "a" [(0, 0); (2, 0)]%float "Q1" false "main" w with
  | (Raised e, w) => (Raised e, w)
  | (Normal _, w) =>
      add_pin self "b" [(0, 1); (2, 1); (3, 1)]%float "Q1" false "main" w
  end.

Definition C_pads : Collaborators := Example.collaborators make_pads.
Definition C_bad : Collaborators := Example.collaborators make_bad.

Definition created : World nat :=
  (__init__ (C := C_pads) Example.cls Example.DesignObj "Q1" None false None
     Example.world1).2.

(** The pin [make_pads] adds first. *)
Definition pin_a : Pin :=
  {| points := [(0, 0); (2, 0)]%float; middle := (1, 0)%float;
     normal := (- 0, 1)%float; tangent := (1, 0)%float; width := 2%float;
     chip := "main"; parent_name := "Q1"; net_id := 0 |}.

(** The component after a build that fails on its second pin, and after
    one that succeeds. *)
Definition failed : World nat := (do_make (C := C_bad) 1%positive created).2.

Definition built : World nat := (do_make (C := C_pads) 1%positive created).2.

(** The design after two lookups of the options of [Example.cls], the
    first with an explicit template. *)
Definition looked_up_twice : World nat :=
  (get_template_options (C := C_pads) Example.cls None None None
     Example.looked_up).2.

(** Tables that answer a request with its kind, and a renderer that counts
    the items of the keyword dictionary it is given. *)
Definition lists : GeometryLists nat :=
  {| Geometries := list string;
     Axes := unit;
     get_component_geometry_list := fun id kind _ => [kind];
     render := fun _ _ kw n => (n + 1 + length kw)%nat |}.

(** [TransmonPocket] as its module defines it again when it is reloaded,
    with another default. *)
Definition cls_reloaded : pyclass :=
  PyClass "qiskit_metal.components.qubits.transmon_pocket" "TransmonPocket"
    (Some [("pos_x", VStr "3mm")])
    [Chain.cls_Tagged; Chain.cls_BaseQubit; Chain.cls_QComponent; Chain.cls_object].

End Pads.

(** ** Dictionaries: lookup, update, display *)

Lemma dict_get_set (d : dictobj) k v k' :
  dict_get (dict_set d k v) k' = if decide (k = k') then Some v else dict_get d k'.
Proof.
  induction d as [|[k0 v0] d IH]; simpl.
  - repeat case_decide; congruence.
  - repeat (case_decide; simpl; subst); try congruence.
Qed.

Lemma dict_get_None (d : dictobj) k : dict_get d k = None ↔ k ∉ d.*1.
Proof.
  induction d as [|[k0 v0] d IH]; simpl.
  - split; [intros _; apply not_elem_of_nil | done].
  - case_decide as Hk; subst.
    + split; [done | intros Hn; exfalso; apply Hn; left].
    + rewrite IH, not_elem_of_cons. naive_solver.
Qed.

Lemma dict_set_keys_in (d : dictobj) k v :
  k ∈ d.*1 → (dict_set d k v).*1 = d.*1.
Proof.
  induction d as [|[k0 v0] d IH]; simpl.
  - intros Hin. by apply elem_of_nil in Hin.
  - intros Hin. case_decide as Hk; simpl; [done|].
    apply elem_of_cons in Hin as [->|Hin]; [done|]. f_equal. by apply IH.
Qed.

Lemma dict_set_keys_notin (d : dictobj) k v :
  k ∉ d.*1 → dict_set d k v = d ++ [(k, v)].
Proof.
  induction d as [|[k0 v0] d IH]; simpl; [done|].
  intros Hn. apply not_elem_of_cons in Hn as [Hn1 Hn2].
  case_decide as Hk; [congruence|]. f_equal. by apply IH.
Qed.

Lemma dict_set_NoDup (d : dictobj) k v : NoDup d.*1 → NoDup (dict_set d k v).*1.
Proof.
  intros H. destruct (decide (k ∈ d.*1)) as [Hin|Hin].
  - by rewrite dict_set_keys_in.
  - rewrite dict_set_keys_notin, fmap_app by done. simpl.
    apply NoDup_app. split_and!; [done | | apply NoDup_singleton].
    intros x Hx Hx'. apply list_elem_of_singleton in Hx'. by subst.
Qed.

Lemma dict_set_keys_subseteq (d : dictobj) k v : d.*1 ⊆ (dict_set d k v).*1.
Proof.
  destruct (decide (k ∈ d.*1)) as [Hin|Hin].
  - by rewrite dict_set_keys_in.
  - rewrite dict_set_keys_notin, fmap_app by done. set_solver.
Qed.

Lemma dict_set_key_in (d : dictobj) k v : k ∈ (dict_set d k v).*1.
Proof.
  destruct (decide (k ∈ d.*1)) as [Hin|Hin].
  - by rewrite dict_set_keys_in.
  - rewrite dict_set_keys_notin, fmap_app by done. set_solver.
Qed.

Lemma dict_update_NoDup (o d : dictobj) : NoDup d.*1 → NoDup (dict_update d o).*1.
Proof.
  unfold dict_update. revert d.
  induction o as [|[k v] o IH]; simpl; intros d H; [done|].
  by apply IH, dict_set_NoDup.
Qed.

Lemma dict_update_keys_l (o d : dictobj) : d.*1 ⊆ (dict_update d o).*1.
Proof.
  unfold dict_update. revert d.
  induction o as [|[k v] o IH]; simpl; intros d; [done|].
  etrans; [apply (dict_set_keys_subseteq d k v) | apply IH].
Qed.

Lemma dict_update_keys_r (o d : dictobj) : o.*1 ⊆ (dict_update d o).*1.
Proof.
  unfold dict_update. revert d.
  induction o as [|[k v] o IH]; simpl; intros d; [set_solver|].
  intros x Hx. apply elem_of_cons in Hx as [->|Hx].
  - apply (dict_update_keys_l o), dict_set_key_in.
  - by apply IH.
Qed.

Lemma dict_update_keys_covered (o d : dictobj) :
  o.*1 ⊆ d.*1 → (dict_update d o).*1 = d.*1.
Proof.
  unfold dict_update. revert d.
  induction o as [|[k v] o IH]; simpl; intros d H; [done|].
  assert (k ∈ d.*1) as Hk by set_solver.
  rewrite IH; rewrite dict_set_keys_in by done; [done | set_solver].
Qed.

(** Reading a key after an update: the last item of [o] for it, else [d]. *)
Lemma dict_get_update (o d : dictobj) k :
  dict_get (dict_update d o) k =
    match dict_get (rev o) k with Some v => Some v | None => dict_get d k end.
Proof.
  unfold dict_update. revert d.
  induction o as [|[k0 v0] o IH] using rev_ind; simpl; intros d; [done|].
  rewrite fold_left_app, rev_app_distr. simpl.
  rewrite dict_get_set. case_decide as Hk; [done | apply IH].
Qed.

Lemma dict_get_rev (d : dictobj) k : NoDup d.*1 → dict_get (rev d) k = dict_get d k.
Proof.
  induction d as [|[k0 v0] d IH]; simpl; [done|].
  intros [Hk0 Hd]%NoDup_cons.
  specialize (IH Hd).
  assert (∀ (a b : dictobj), dict_get (a ++ b) k =
    match dict_get a k with Some v => Some v | None => dict_get b k end) as Happ.
  { clear. induction a as [|[k1 v1] a IHa]; simpl; intros b; [done|].
    case_decide as Hk; [done | apply IHa]. }
  rewrite Happ, IH. simpl. case_decide as Hk; subst.
  - apply dict_get_None in Hk0. by rewrite Hk0.
  - by destruct (dict_get d k).
Qed.

(** A dictionary is its keys, in order, and what each key reads. *)
Lemma dict_ext (a b : dictobj) :
  NoDup a.*1 → a.*1 = b.*1 → (∀ k, dict_get a k = dict_get b k) → a = b.
Proof.
  revert b. induction a as [|[k v] a IH]; intros [|[k' v'] b]; simpl; try done.
  intros [Hk Ha]%NoDup_cons [= <- Hkeys] Hget. f_equal.
  - specialize (Hget k). rewrite !decide_True in Hget by done. congruence.
  - apply IH; [done..|]. intros k0. specialize (Hget k0).
    case_decide as Hk0; subst; [|done].
    assert (k0 ∉ b.*1) as Hb by (unfold fmap in *; by rewrite <- Hkeys).
    apply dict_get_None in Hk, Hb. by rewrite Hk, Hb.
Qed.

Lemma dict_update_nil_l (a p : dictobj) :
  NoDup (p ++ a).*1 → dict_update p a = p ++ a.
Proof.
  unfold dict_update. revert p.
  induction a as [|[k v] a IH]; simpl; intros p H; [by rewrite app_nil_r|].
  assert (k ∉ p.*1) as Hk.
  { rewrite fmap_app in H. apply NoDup_app in H as (_ & H & _).
    intros Hin. apply (H k Hin). simpl. left. }
  rewrite dict_set_keys_notin by done.
  rewrite IH; rewrite <- app_assoc; done.
Qed.

Lemma dict_display_update (acc d : dictobj) :
  NoDup acc.*1 → dict_display acc d = dict_update acc d.
Proof.
  intros H. unfold dict_display. by rewrite (dict_update_nil_l acc []).
Qed.

Lemma dict_display_NoDup (acc d : dictobj) : NoDup (dict_display acc d).*1.
Proof. unfold dict_display. apply dict_update_NoDup, dict_update_NoDup, NoDup_nil_2. Qed.

(** Merging the same dictionary twice changes nothing more. *)
Lemma dict_display_idem (acc d : dictobj) :
  dict_display (dict_display acc d) d = dict_display acc d.
Proof.
  rewrite (dict_display_update (dict_display acc d)) by apply dict_display_NoDup.
  set (r := dict_display acc d).
  assert (NoDup r.*1) as Hr by apply dict_display_NoDup.
  symmetry. apply dict_ext; [done | |].
  - symmetry. apply dict_update_keys_covered. apply dict_update_keys_r.
  - intros k. rewrite dict_get_update.
    destruct (dict_get (rev d) k) as [v|] eqn:E; [|done].
    unfold r, dict_display. by rewrite dict_get_update, E.
Qed.

(** ** The option resolver *)

Lemma slice_down_mro {A} (l : list A) (x y : A) :
  slice_down (l ++ [x; y]) (Z.of_nat (length (l ++ [x; y])) - 2) = rev (l ++ [x]).
Proof.
  unfold slice_down. rewrite length_app. simpl length.
  replace (Z.of_nat (length l + 2) - 2)%Z with (Z.of_nat (length l)) by lia.
  assert ((Z.of_nat (length l) <? 0)%Z = false) as Hs by (apply Z.ltb_ge; lia).
  cbv zeta. rewrite !Hs, Z.min_l, Nat2Z.id by lia.
  f_equal. replace (l ++ [x; y]) with ((l ++ [x]) ++ [y]) by by rewrite <- app_assoc.
  apply take_app_length'. rewrite length_app. simpl. lia.
Qed.

Lemma removelast_snoc2 {A} (l : list A) (x y : A) :
  removelast (l ++ [x; y]) = l ++ [x].
Proof.
  replace (l ++ [x; y]) with ((l ++ [x]) ++ [y]) by by rewrite <- app_assoc.
  apply removelast_last.
Qed.

Lemma step_own_Some c d acc :
  own_default_options c = Some d → step_own c acc = dict_display acc d.
Proof. unfold step_own. by intros ->. Qed.

Lemma step_own_None c acc : own_default_options c = None → step_own c acc = acc.
Proof. unfold step_own. by intros ->. Qed.


(** What a class without [default_options] of its own inherits has already
    been merged, with nothing defined in between. *)
Lemma fold_step_own_absorb (l : list pyclass) (root : pyclass) (d : dictobj) :
  own_default_options root = None →
  find_default_options (l ++ [root]) = Some d →
  dict_display (foldr step_own [] l) d = foldr step_own [] l.
Proof.
  intros Hroot. induction l as [|c l IH]; simpl.
  - by rewrite Hroot.
  - destruct (own_default_options c) as [d'|] eqn:E.
    + intros [= ->]. rewrite (step_own_Some _ _ _ E). apply dict_display_idem.
    + rewrite (step_own_None _ _ E). apply IH.
Qed.

Lemma fold_step_attr_own (l : list pyclass) (root : pyclass) :
  own_default_options root = None →
  single_inheritance (l ++ [root]) →
  foldr step_attr [] l = foldr step_own [] l.
Proof.
  intros Hroot. induction l as [|c l IH]; simpl; [done|].
  intros [Hmro Hl]. rewrite (IH Hl).
  unfold step_attr, getattr_default_options, getmro. simpl.
  rewrite Hmro. destruct (own_default_options c) as [d|] eqn:E.
  - by rewrite (step_own_Some _ _ _ E).
  - rewrite (step_own_None _ _ E).
    destruct (find_default_options (l ++ [root])) as [d|] eqn:E'; [|done].
    by apply fold_step_own_absorb with root.
Qed.


Lemma gather_as_foldr (l : list pyclass) (c root : pyclass) :
  getmro c = l ++ [root] →
  l ≠ [] →
  _gather_all_children_options c = foldr step_attr [] l ∧
  merge_own_defaults c = foldr step_own [] l.
Proof.
  intros Hmro Hne. unfold _gather_all_children_options, merge_own_defaults.
  rewrite Hmro.
  destruct l as [|x l _] using rev_ind; [done|].
  rewrite <- app_assoc. simpl.
  rewrite slice_down_mro, removelast_snoc2.
  split; rewrite <- (rev_involutive (l ++ [x])) at 2;
    by rewrite <- fold_left_rev_right, rev_involutive.
Qed.

Lemma mro_split (c : pyclass) :
  ∃ l root, getmro c = l ++ [root] ∧ last (getmro c) = Some root.
Proof.
  unfold getmro. destruct (mro_tail c) as [|x t _] using rev_ind.
  - by exists [], c.
  - exists (c :: t), x. split; [done|].
    change (c :: t ++ [x]) with ((c :: t) ++ [x]). apply last_snoc.
Qed.


(** ** The heap: frames, reading, deep copies *)

Lemma heap_extends_refl h : heap_extends h h.
Proof. by intros l es. Qed.

Lemma heap_extends_trans h1 h2 h3 :
  heap_extends h1 h2 → heap_extends h2 h3 → heap_extends h1 h3.
Proof. intros H12 H23 l es Hl. eauto. Qed.

Lemma heap_extends_insert_fresh (h : gmap loc dictobj) l es :
  h !! l = None → heap_extends h (<[l := es]> h).
Proof.
  intros Hl l0 es0 Hl0. rewrite lookup_insert_ne; [done|]. congruence.
Qed.

Lemma fresh_lookup_None (h : gmap loc dictobj) : h !! fresh (dom h) = None.
Proof. apply not_elem_of_dom, is_fresh. Qed.

Lemma ren_val_mono m m' v : m ⊆ m' → val_in m v → ren_val m' v = ren_val m v.
Proof.
  intros Hsub. destruct v as [s|l]; simpl; [done|].
  intros [l' Hl]. rewrite Hl. by rewrite (lookup_weaken _ _ _ _ Hl Hsub).
Qed.

Lemma val_in_mono m m' v : m ⊆ m' → val_in m v → val_in m' v.
Proof.
  intros Hsub. destruct v as [s|l]; simpl; [done|].
  intros [l' Hl]. exists l'. by apply (lookup_weaken _ _ _ _ Hl Hsub).
Qed.

Lemma ren_items_mono m m' (es : dictobj) :
  m ⊆ m' → Forall (fun kv => val_in m kv.2) es →
  ren_item m' <$> es = ren_item m <$> es.
Proof.
  intros Hsub Hes. induction Hes as [|[k v] es Hv Hes IH]; simpl; [done|].
  unfold ren_item at 1 3. simpl. rewrite (ren_val_mono m m') by done.
  f_equal. apply IH.
Qed.

Lemma deepcopy_val_extends fuel :
  ∀ v h m v' h' m',
    deepcopy_val fuel v h m = Some (v', h', m') → heap_extends h h'.
Proof.
  induction fuel as [|n IH]; intros v h m v' h' m'; destruct v as [s|l]; simpl.
  - intros [= <- <- <-]. apply heap_extends_refl.
  - destruct (m !! l); [|done]. intros [= <- <- <-]. apply heap_extends_refl.
  - intros [= <- <- <-]. apply heap_extends_refl.
  - destruct (m !! l); [intros [= <- <- <-]; apply heap_extends_refl|].
    destruct (h !! l) as [es|]; [|done].
    set (l' := fresh (dom h)).
    assert (∀ es h1 m1 es' h2 m2,
      copy_items (deepcopy_val n) es h1 m1 = Some (es', h2, m2) →
      heap_extends h1 h2) as Hitems.
    { clear -IH. induction es as [|[k v] es IHes]; simpl; intros h1 m1 es' h2 m2.
      - intros [= <- <- <-]. apply heap_extends_refl.
      - destruct (deepcopy_val n v h1 m1) as [[[v1 h3] m3]|] eqn:E1; [|done].
        destruct (copy_items (deepcopy_val n) es h3 m3) as [[[r h4] m4]|] eqn:E2; [|done].
        intros [= <- <- <-]. eapply heap_extends_trans; eauto. }
    destruct (copy_items _ es _ _) as [[[es' h2] m2]|] eqn:E; [|done].
    intros [= <- <- <-]. apply Hitems in E.
    intros l0 es0 Hl0.
    assert (l0 ≠ l') as Hne.
    { intros ->. unfold l' in Hl0. by rewrite fresh_lookup_None in Hl0. }
    rewrite lookup_insert_ne by done. apply E. by rewrite lookup_insert_ne.
Qed.

Lemma deepcopy_extends fuel l h l' h' :
  deepcopy fuel l h = Some (l', h') → heap_extends h h'.
Proof.
  unfold deepcopy.
  destruct (deepcopy_val fuel (VRef l) h ∅) as [[[[s|l0] h0] m0]|] eqn:E; [done| |done].
  intros [= <- <-]. by eapply deepcopy_val_extends.
Qed.

Lemma copy_items_inv h0 f :
  copier_ok h0 f →
  ∀ es h m P es' h' m',
    copy_inv h0 h m P → dict_ok h0 es →
    copy_items f es h m = Some (es', h', m') →
    copy_inv h0 h' m' P ∧ m ⊆ m' ∧ es' = ren_item m' <$> es ∧
    Forall (fun kv => val_in m' kv.2) es.
Proof.
  intros Hf. induction es as [|[k v] es IH]; simpl; intros h m P es' h' m' Hinv Hok.
  - intros [= <- <- <-]. split_and!; [done..|constructor].
  - apply Forall_cons in Hok as [Hv Hes].
    destruct (f v h m) as [[[v1 h1] m1]|] eqn:E1; [|done].
    destruct (copy_items f es h1 m1) as [[[r h2] m2]|] eqn:E2; [|done].
    intros [= <- <- <-].
    destruct (Hf _ _ _ _ _ _ _ Hinv Hv E1) as (Hinv1 & Hsub1 & -> & Hin1).
    destruct (IH _ _ _ _ _ _ Hinv1 Hes E2) as (Hinv2 & Hsub2 & -> & Hin2).
    split_and!; [done | by etrans | | ].
    + unfold ren_item at 2. simpl. by rewrite (ren_val_mono m1 m2).
    + apply Forall_cons. split; [|done]. by apply (val_in_mono m1).
Qed.

Lemma copy_inv_start h0 h m P l :
  copy_inv h0 h m P → is_Some (h0 !! l) → m !! l = None →
  copy_inv h0 (<[fresh (dom h) := []]> h) (<[l := fresh (dom h)]> m) (P ∪ {[l]}).
Proof.
  intros [Hext Hsrc Hinj Hdone Hnew] Hl Hm.
  set (l' := fresh (dom h)).
  assert (h !! l' = None) as Hl' by apply fresh_lookup_None.
  assert (h0 !! l' = None) as Hl0'.
  { destruct (h0 !! l') as [es|] eqn:E; [|done]. apply Hext in E. congruence. }
  assert (m ⊆ <[l := l']> m) as Hsub by by apply insert_subseteq.
  split.
  - eapply heap_extends_trans; [done|]. by apply heap_extends_insert_fresh.
  - intros x x'. rewrite lookup_insert. case_decide as Hx; subst.
    + intros [= <-]. split_and!; [done..|]. rewrite lookup_insert_eq. eauto.
    + intros Hmx. destruct (Hsrc _ _ Hmx) as (? & ? & [es Hes]).
      split_and!; [done..|]. exists es. rewrite lookup_insert_ne; [done|]. congruence.
  - intros x1 x2 x'. rewrite !lookup_insert.
    case_decide as H1; case_decide as H2; subst; try done.
    + intros [= <-] Hm2. destruct (Hsrc _ _ Hm2) as (_ & _ & [? ?]). congruence.
    + intros Hm1 [= <-]. destruct (Hsrc _ _ Hm1) as (_ & _ & [? ?]). congruence.
    + apply Hinj.
  - intros x x'. rewrite lookup_insert. case_decide as Hx; subst.
    + intros _ Hn. exfalso. apply Hn. set_solver.
    + intros Hmx Hn. destruct (Hdone x x' Hmx) as (es & Hes0 & Hes & Hin); [set_solver|].
      exists es. split_and!; [done| |].
      * rewrite lookup_insert_ne by congruence.
        by rewrite (ren_items_mono m).
      * eapply Forall_impl; [done|]. intros kv. by apply val_in_mono.
  - intros x' Hx0. rewrite lookup_insert. case_decide as Hx; subst.
    + intros _. exists l. by rewrite lookup_insert_eq.
    + intros Hx'. destruct (Hnew _ Hx0 Hx') as [x Hmx]. exists x.
      rewrite lookup_insert_ne; [done|]. congruence.
Qed.

Lemma copy_inv_finish h0 h m P l l' es :
  copy_inv h0 h m (P ∪ {[l]}) → m !! l = Some l' → h0 !! l = Some es →
  Forall (fun kv => val_in m kv.2) es →
  copy_inv h0 (<[l' := ren_item m <$> es]> h) m P.
Proof.
  intros [Hext Hsrc Hinj Hdone Hnew] Hm Hl Hin.
  destruct (Hsrc _ _ Hm) as (_ & Hl0' & Hhl').
  split.
  - intros x xs Hx. rewrite lookup_insert_ne; [by apply Hext|]. congruence.
  - intros x x' Hmx. destruct (Hsrc _ _ Hmx) as (? & ? & [xs Hxs]).
    split_and!; [done..|]. rewrite lookup_insert. case_decide; eauto.
  - done.
  - intros x x' Hmx Hn. destruct (decide (x = l)) as [->|Hne].
    + assert (x' = l') as -> by congruence.
      exists es. by rewrite lookup_insert_eq.
    + destruct (Hdone x x' Hmx) as (xs & Hxs0 & Hxs & Hxin); [set_solver|].
      exists xs. split_and!; [done| |done].
      rewrite lookup_insert_ne; [done|]. intros <-. apply Hne. by eapply Hinj.
  - intros x' Hx0. rewrite lookup_insert. case_decide as Hx; subst.
    + intros _. eauto.
    + by apply Hnew.
Qed.

Lemma deepcopy_val_inv h0 fuel : heap_closed h0 → copier_ok h0 (deepcopy_val fuel).
Proof.
  intros Hclosed. induction fuel as [|n IH];
    intros v h m P v' h' m' Hinv Hv; destruct v as [s|l]; simpl.
  - intros [= <- <- <-]. by split_and!.
  - destruct (m !! l) as [l'|] eqn:Hm; [|done]. intros [= <- <- <-].
    split_and!; [done | done | simpl; by rewrite Hm | simpl; eauto].
  - intros [= <- <- <-]. by split_and!.
  - destruct (m !! l) as [l'|] eqn:Hm.
    { intros [= <- <- <-]. split_and!; [done | done | simpl; by rewrite Hm | simpl; eauto]. }
    destruct Hv as [es0 Hes0].
    rewrite (ci_ext _ _ _ _ Hinv _ _ Hes0).
    set (l' := fresh (dom h)).
    destruct (copy_items _ es0 _ _) as [[[es' h2] m2]|] eqn:E; [|done].
    intros [= <- <- <-].
    pose proof (copy_inv_start _ _ _ _ l Hinv (mk_is_Some _ _ Hes0) Hm) as Hinv1.
    assert (dict_ok h0 es0) as Hok by by apply (Hclosed l).
    destruct (copy_items_inv h0 _ IH _ _ _ _ _ _ _ Hinv1 Hok E)
      as (Hinv2 & Hsub & -> & Hin).
    assert (m2 !! l = Some l') as Hm2.
    { apply (lookup_weaken _ _ _ _ (lookup_insert_eq m l l') Hsub). }
    split_and!.
    + by apply copy_inv_finish with l.
    + etrans; [|done]. by apply insert_subseteq.
    + simpl. by rewrite Hm2.
    + simpl. eauto.
Qed.

Lemma read_S n h l : read (S n) h (VRef l) = h !! l ≫= read_dict n h.
Proof. reflexivity. Qed.

Lemma read_dict_ext n h h2 (es es2 : dictobj) :
  Forall2 (fun kv kv2 => kv.1 = kv2.1 ∧ read n h2 kv2.2 = read n h kv.2) es es2 →
  read_dict n h2 es2 = read_dict n h es.
Proof.
  unfold read_dict. intros H. f_equal.
  induction H as [|[k v] [k2 v2] es es2 [Hk Hv] _ IH]; simpl in *; [done|].
  subst. by rewrite Hv, IH.
Qed.

Lemma read_dict_same n h h2 (es : dictobj) :
  (∀ k v, (k, v) ∈ es → read n h2 v = read n h v) →
  read_dict n h2 es = read_dict n h es.
Proof.
  intros H. apply read_dict_ext. induction es as [|[k v] es IH]; constructor.
  - split; [done|]. apply (H k). left.
  - apply IH. intros k' v' Hin. apply (H k'). by right.
Qed.

Lemma val_ok_extends h h' v : heap_extends h h' → val_ok h v → val_ok h' v.
Proof. intros Hext. destruct v as [s|l]; simpl; [done|]. intros [es Hes]. eauto. Qed.

Lemma dict_ok_extends h h' (es : dictobj) :
  heap_extends h h' → dict_ok h es → dict_ok h' es.
Proof.
  intros Hext Hok. eapply Forall_impl; [done|]. intros kv. by apply val_ok_extends.
Qed.

(** Reading follows references only, so it depends on reachable objects. *)
Lemma read_frame n : ∀ h h2 l,
  (∀ y, reach h l y → h2 !! y = h !! y) →
  read n h2 (VRef l) = read n h (VRef l).
Proof.
  induction n as [|n IH]; intros h h2 l Hsame; [done|].
  rewrite !read_S, (Hsame l) by apply rtc_refl.
  destruct (h !! l) as [es|] eqn:El; [simpl|done].
  apply read_dict_same. intros k [s|l'] Hin; [by destruct n|].
  apply IH. intros y Hy. apply Hsame.
  eapply rtc_l; [|done]. by exists es, k.
Qed.

Lemma reach_closed h h' l y :
  heap_closed h → heap_extends h h' → is_Some (h !! l) →
  reach h' l y → is_Some (h !! y).
Proof.
  intros Hclosed Hext Hl Hreach. induction Hreach as [|x z y Hedge _ IH]; [done|].
  apply IH. destruct Hl as [es Hes].
  destruct Hedge as (es' & k & Hes' & Hin).
  rewrite (Hext _ _ Hes) in Hes'. injection Hes' as <-.
  pose proof (Hclosed _ _ Hes) as Hok.
  unfold dict_ok in Hok. rewrite Forall_forall in Hok.
  apply (Hok (k, VRef z) Hin).
Qed.

(** Unchanged old objects read the same. *)
Lemma read_extends n h h' l :
  heap_closed h → heap_extends h h' → is_Some (h !! l) →
  read n h' (VRef l) = read n h (VRef l).
Proof.
  intros Hclosed Hext Hl. apply read_frame. intros y Hy.
  assert (is_Some (h !! y)) as [es Hes].
  { eapply (reach_closed h h); eauto using heap_extends_refl. }
  rewrite Hes. by apply Hext.
Qed.

Lemma copy_inv_init h : copy_inv h h ∅ ∅.
Proof.
  split.
  - apply heap_extends_refl.
  - intros l l'. by rewrite lookup_empty.
  - intros l1 l2 l'. by rewrite lookup_empty.
  - intros l l'. by rewrite lookup_empty.
  - intros l' Hn [es Hes]. congruence.
Qed.

Lemma copy_done_closed h0 h m :
  heap_closed h0 → copy_inv h0 h m ∅ → heap_closed h.
Proof.
  intros Hclosed Hinv.
  intros x es Hx. destruct (h0 !! x) as [es0|] eqn:E0.
  - rewrite (ci_ext _ _ _ _ Hinv _ _ E0) in Hx. injection Hx as <-.
    eapply dict_ok_extends; [apply Hinv|]. by apply (Hclosed x).
  - destruct (ci_new _ _ _ _ Hinv x E0 (mk_is_Some _ _ Hx)) as [l Hl].
    destruct (ci_done _ _ _ _ Hinv l x Hl) as (es0 & _ & Hes & Hin); [set_solver|].
    rewrite Hx in Hes. injection Hes as ->.
    unfold dict_ok. rewrite Forall_fmap. eapply Forall_impl; [done|].
    intros [k [s|y]]; simpl; [done|]. intros [y' Hy]. rewrite Hy.
    by destruct (ci_src _ _ _ _ Hinv _ _ Hy) as (_ & _ & ?).
Qed.

Lemma copy_done_read h0 h m n :
  copy_inv h0 h m ∅ → ∀ v, val_in m v → read n h (ren_val m v) = read n h0 v.
Proof.
  intros Hinv. induction n as [|n IH]; intros [s|l]; simpl; try done.
  - intros [l' Hl]. by rewrite Hl.
  - intros [l' Hl]. rewrite Hl.
    destruct (ci_done _ _ _ _ Hinv l l' Hl) as (es & Hes0 & Hes & Hin); [set_solver|].
    change (h !! l' ≫= read_dict n h = h0 !! l ≫= read_dict n h0).
    rewrite Hes, Hes0. simpl. apply read_dict_ext.
    clear Hes Hes0. induction Hin as [|[k v] es Hv Hin IHes]; constructor; [|done].
    split; [done|]. by apply IH.
Qed.

Lemma copy_done_reach h0 h m x x' y :
  copy_inv h0 h m ∅ →
  m !! x = Some x' → reach h x' y → ∃ y0, m !! y0 = Some y.
Proof.
  intros Hinv Hx Hreach. revert x Hx.
  induction Hreach as [x'|x' z y Hedge _ IH]; intros x0 Hx; [eauto|].
  destruct Hedge as (es' & k & Hes' & Hin).
  destruct (ci_done _ _ _ _ Hinv x0 x' Hx) as (es & _ & Hes & Hvin); [set_solver|].
  rewrite Hes' in Hes. injection Hes as ->.
  apply list_elem_of_fmap in Hin as ([k0 v0] & Heq & Hin0).
  rewrite Forall_forall in Hvin. specialize (Hvin _ Hin0).
  unfold ren_item in Heq. simpl in *. injection Heq as -> Hz.
  destruct v0 as [s|z0]; [done|]. destruct Hvin as [z' Hz']. simpl in Hz.
  rewrite Hz' in Hz. injection Hz as ->. by apply (IH z0).
Qed.

(** What [deepcopy] returns: a new object whose nested objects are all new,
    reading as the original; every old object is left as it was. *)
Lemma deepcopy_spec fuel l h l' h' :
  heap_closed h → is_Some (h !! l) → deepcopy fuel l h = Some (l', h') →
  heap_extends h h' ∧ heap_closed h' ∧ is_Some (h' !! l') ∧
  (∀ n, read n h' (VRef l') = read n h (VRef l)) ∧
  (∀ y, reach h' l' y → h !! y = None).
Proof.
  intros Hclosed Hl. unfold deepcopy.
  destruct (deepcopy_val fuel (VRef l) h ∅) as [[[[s|l0] h0] m0]|] eqn:E; [done| |done].
  intros [= <- <-].
  destruct (deepcopy_val_inv h fuel Hclosed (VRef l) h ∅ ∅ _ _ _ (copy_inv_init h) Hl E)
    as (Hinv & _ & Hren & [x Hx]).
  simpl in Hren. rewrite Hx in Hren. injection Hren as ->.
  split_and!.
  - apply Hinv.
  - by apply (copy_done_closed h h0 m0).
  - by destruct (ci_src _ _ _ _ Hinv _ _ Hx) as (_ & _ & ?).
  - intros n. pose proof (copy_done_read h h0 m0 n Hinv (VRef l)) as Hr.
    simpl in Hr. rewrite Hx in Hr. apply Hr. eauto.
  - intros y Hy. destruct (copy_done_reach h h0 m0 _ _ _ Hinv Hx Hy) as [y0 Hy0].
    by destruct (ci_src _ _ _ _ Hinv _ _ Hy0) as (_ & ? & _).
Qed.

Lemma read_val_ok n h v tr : read n h v = Some tr → val_ok h v.
Proof.
  destruct v as [s|l]; [by intros|]. destruct n as [|n]; [done|].
  rewrite read_S. simpl. destruct (h !! l) as [es|]; [eauto|done].
Qed.

Lemma read_dict_items n h (es : dictobj) tr :
  read_dict n h es = Some tr →
  Forall (fun kv => is_Some (read n h kv.2)) es.
Proof.
  unfold read_dict. intros Hr. apply fmap_Some in Hr as (items & Hitems & _).
  apply mapM_Some in Hitems. induction Hitems as [|[k v] y es ys Hv _ IH]; constructor; [|done].
  simpl in *. destruct (read n h v); [eauto|done].
Qed.

(** A value that reads within the nesting [fuel] allows is copied. *)
Lemma deepcopy_val_returns h0 fuel :
  heap_closed h0 →
  ∀ n v h m P tr,
    copy_inv h0 h m P → read n h0 v = Some tr → n ≤ fuel →
    is_Some (deepcopy_val fuel v h m).
Proof.
  intros Hclosed. induction fuel as [|f IH]; intros n v h m P tr Hinv Hread Hn;
    destruct v as [s|l]; simpl; try by eauto.
  - destruct (m !! l); [eauto|]. destruct n; [done|lia].
  - destruct (m !! l) as [l'|] eqn:Hm; [eauto|].
    destruct n as [|n]; [done|]. rewrite read_S in Hread.
    destruct (h0 !! l) as [es|] eqn:Hes; [|done]. simpl in Hread.
    rewrite (ci_ext _ _ _ _ Hinv _ _ Hes).
    pose proof (read_dict_items _ _ _ _ Hread) as Hitems.
    pose proof (copy_inv_start _ _ _ _ l Hinv (mk_is_Some _ _ Hes) Hm) as Hinv1.
    set (h1 := <[fresh (dom h) := []]> h) in *.
    set (m1 := <[l := fresh (dom h)]> m) in *.
    assert (is_Some (copy_items (deepcopy_val f) es h1 m1)) as [[[es' h2] m2] ->]; [|eauto].
    clearbody h1 m1. clear Hread Hes Hm. revert h1 m1 Hinv1.
    induction Hitems as [|[k v] es [tv Hv] _ IHes]; intros h1 m1 Hinv1; simpl; [eauto|].
    destruct (IH n v h1 m1 _ tv Hinv1 Hv ltac:(lia)) as [[[v1 h3] m3] E1].
    rewrite E1.
    destruct (deepcopy_val_inv h0 f Hclosed v h1 m1 _ _ _ _ Hinv1 (read_val_ok _ _ _ _ Hv) E1)
      as (Hinv3 & _).
    destruct (IHes h3 m3 Hinv3) as [[[r h4] m4] ->]. eauto.
Qed.

Lemma deepcopy_returns fuel n l h tr :
  heap_closed h → read n h (VRef l) = Some tr → n ≤ fuel →
  is_Some (deepcopy fuel l h).
Proof.
  intros Hclosed Hread Hn. unfold deepcopy.
  destruct (deepcopy_val_returns h fuel Hclosed n (VRef l) h ∅ ∅ tr
              (copy_inv_init h) Hread Hn) as [[[v' h'] m'] E].
  rewrite E.
  destruct (deepcopy_val_inv h fuel Hclosed (VRef l) h ∅ ∅ _ _ _
              (copy_inv_init h) (read_val_ok _ _ _ _ Hread) E) as (_ & _ & Hren & [x Hx]).
  simpl in Hren. rewrite Hx in Hren. subst. eauto.
Qed.

(** ** Registration of templates *)

Lemma alloc_spec (es : dictobj) h l h' :
  alloc es h = (l, h') →
  h !! l = None ∧ h' !! l = Some es ∧ heap_extends h h'.
Proof.
  unfold alloc. intros [= <- <-].
  pose proof (fresh_lookup_None h) as Hf.
  split_and!; [done | by rewrite lookup_insert_eq |].
  by apply heap_extends_insert_fresh.
Qed.

Lemma alloc_closed (es : dictobj) h l h' :
  heap_closed h → dict_ok h es → alloc es h = (l, h') → heap_closed h'.
Proof.
  intros Hclosed Hok Halloc.
  destruct (alloc_spec _ _ _ _ Halloc) as (Hl & _ & Hext).
  unfold alloc in Halloc. injection Halloc as <- <-.
  apply map_Forall_insert_2.
  - by apply dict_ok_extends with h.
  - eapply map_Forall_impl; [done|]. intros x xs. by apply dict_ok_extends.
Qed.

Lemma truthy_Some {Ext} (w : World Ext) ct :
  truthy w ct = true → ∃ l es, ct = Some l ∧ heap w !! l = Some es.
Proof.
  unfold truthy. destruct ct as [l|]; [|done].
  destruct (heap w !! l) as [es|] eqn:E; [|done]. eauto.
Qed.

(** The dictionary [_register_class_with_design] makes its copy of. *)
Lemma register_source_ok {Ext} (w : World Ext) cls ct l w1 :
  world_ok w → dict_ok (heap w) (_gather_all_children_options cls) →
  match ct with
  | Some l =>
      if truthy w (Some l) then (l, w)
      else
        let '(l', h') := alloc (_gather_all_children_options cls) (heap w) in
        (l', set_heap h' w)
  | None =>
      let '(l', h') := alloc (_gather_all_children_options cls) (heap w) in
      (l', set_heap h' w)
  end = (l, w1) →
  heap_closed (heap w1) ∧ is_Some (heap w1 !! l) ∧
  heap_extends (heap w) (heap w1) ∧ template_options w1 = template_options w.
Proof.
  intros [Hclosed Htempl] Hok.
  assert (∀ l' h', alloc (_gather_all_children_options cls) (heap w) = (l', h') →
            (l', set_heap h' w) = (l, w1) →
            heap_closed (heap w1) ∧ is_Some (heap w1 !! l) ∧
            heap_extends (heap w) (heap w1) ∧
            template_options w1 = template_options w) as Hgather.
  { intros l' h' Halloc [= <- <-]. simpl.
    destruct (alloc_spec _ _ _ _ Halloc) as (_ & Hl' & Hext).
    split_and!; [by eapply alloc_closed | eauto | done | done]. }
  destruct ct as [l0|].
  - destruct (truthy w (Some l0)) eqn:Et.
    + intros [= <- <-]. apply truthy_Some in Et as (? & es & [= <-] & Hes).
      split_and!; [done | eauto | apply heap_extends_refl | done].
    + destruct (alloc _ _) as [l' h'] eqn:Halloc. by apply Hgather.
  - destruct (alloc _ _) as [l' h'] eqn:Halloc. by apply Hgather.
Qed.

Lemma register_ok {C : Collaborators} cls key ct (w w1 : World Ext) :
  world_ok w → dict_ok (heap w) (_gather_all_children_options cls) →
  _register_class_with_design cls key ct w = (Normal (), w1) →
  world_ok w1 ∧ heap_extends (heap w) (heap w1) ∧
  is_Some (template_options w1 !! key).
Proof.
  intros Hw Hok. unfold _register_class_with_design.
  destruct (template_options w !! key) as [t|] eqn:Ekey.
  { intros [= <-]. split_and!; [done | apply heap_extends_refl | by rewrite Ekey]. }
  destruct (match ct with Some _ => _ | None => _ end) as [l w0] eqn:Esrc.
  destruct (register_source_ok _ _ _ _ _ Hw Hok Esrc) as (Hc0 & Hl & Hext0 & Ht0).
  destruct (deepcopy recursion_limit l (heap w0)) as [[t h']|] eqn:Ecopy; [|done].
  intros [= <-]. simpl.
  destruct (deepcopy_spec _ _ _ _ _ Hc0 Hl Ecopy) as (Hext & Hc' & Ht & _ & _).
  split_and!.
  - split; [done|]. simpl. intros k t0. rewrite lookup_insert.
    case_decide as Hk; [by intros [= <-]|].
    rewrite Ht0. intros Hk0. destruct Hw as [_ Htempl].
    destruct (Htempl _ _ Hk0) as [es Hes]. exists es. by apply Hext, Hext0.
  - by eapply heap_extends_trans.
  - rewrite lookup_insert_eq. eauto.
Qed.

Lemma read_alloc n (es : dictobj) h l h' :
  heap_closed h → dict_ok h es → alloc es h = (l, h') →
  read (S n) h' (VRef l) = read_dict n h es.
Proof.
  intros Hclosed Hok Halloc.
  destruct (alloc_spec _ _ _ _ Halloc) as (_ & Hl & Hext).
  rewrite read_S, Hl. simpl.
  apply read_dict_same. intros k [s|x] Hin; [by destruct n|].
  apply read_extends; [done..|].
  unfold dict_ok in Hok. rewrite Forall_forall in Hok. apply (Hok _ Hin).
Qed.

(** Registration returns when what it copies reads within the limit. *)
Lemma register_returns {C : Collaborators} cls key ct (w : World Ext) n :
  world_ok w → dict_ok (heap w) (_gather_all_children_options cls) →
  template_options w !! key = None →
  copies_within n cls key ct w → n ≤ recursion_limit →
  ∃ w' t, _register_class_with_design cls key ct w = (Normal (), w') ∧
          world_ok w' ∧ template_options w' !! key = Some t ∧
          is_Some (read n (heap w') (VRef t)).
Proof.
  intros Hw Hok Hkey Hread Hn.
  pose proof Hw as [Hclosed _].
  unfold copies_within in Hread. rewrite Hkey in Hread.
  destruct (_register_class_with_design cls key ct w) as [r w'] eqn:Ereg.
  revert Ereg. unfold _register_class_with_design. rewrite Hkey.
  destruct (match ct with Some _ => _ | None => _ end) as [l w0] eqn:Esrc.
  destruct (register_source_ok _ _ _ _ _ Hw Hok Esrc) as (Hc0 & Hl & Hext0 & Ht0).
  assert (is_Some (read n (heap w0) (VRef l))) as [tr Htr].
  { destruct ct as [l0|]; [destruct (truthy w (Some l0)) eqn:Et|].
    - injection Esrc as <- <-. by destruct Hread as (? & [= <-] & ?).
    - destruct Hread as (k & -> & Hk).
      destruct (alloc _ (heap w)) as [l' h'] eqn:Halloc. injection Esrc as <- <-.
      cbn [heap set_heap]. by rewrite (read_alloc _ _ _ _ _ Hclosed Hok Halloc).
    - destruct Hread as (k & -> & Hk).
      destruct (alloc _ (heap w)) as [l' h'] eqn:Halloc. injection Esrc as <- <-.
      cbn [heap set_heap]. by rewrite (read_alloc _ _ _ _ _ Hclosed Hok Halloc). }
  destruct (deepcopy_returns recursion_limit n l (heap w0) tr Hc0 Htr Hn)
    as [[t h'] Ecopy].
  rewrite Ecopy. intros [= <- <-].
  destruct (deepcopy_spec _ _ _ _ _ Hc0 Hl Ecopy) as (_ & _ & _ & Hrd & _).
  assert (_register_class_with_design cls key ct w =
          (Normal (), set_template_options (<[key := t]> (template_options w0))
                        (set_heap h' w0))) as Ereg.
  { unfold _register_class_with_design. by rewrite Hkey, Esrc, Ecopy. }
  destruct (register_ok _ _ _ _ _ Hw Hok Ereg) as (Hw' & _ & _).
  eexists _, t. split_and!; [done | done | simpl; by rewrite lookup_insert_eq |].
  simpl. rewrite Hrd, Htr. eauto.
Qed.

(** [get_template_options] returns when what it copies reads within the
    limit. *)
Lemma get_template_options_returns {C : Collaborators} cls ct lg tk (w : World Ext) n :
  Dict_new_copies →
  world_ok w → dict_ok (heap w) (_gather_all_children_options cls) →
  copies_within n cls (resolve_key cls tk) ct w → n ≤ recursion_limit →
  ∃ options w', get_template_options cls ct lg tk w = (Normal options, w').
Proof.
  intros Hcopies Hw Hok Hread Hn. unfold get_template_options.
  set (key := resolve_key cls tk) in *.
  assert (∃ w1 t,
            match template_options w !! key with
            | Some _ => (Normal (), w)
            | None => _register_class_with_design cls key ct w
            end = (Normal (), w1) ∧
            world_ok w1 ∧ template_options w1 !! key = Some t ∧
            is_Some (read n (heap w1) (VRef t))) as (w1 & t & -> & Hw1 & Ht & [tr Htr]).
  { destruct (template_options w !! key) as [t|] eqn:Ekey.
    - exists w, t. unfold copies_within in Hread. by rewrite Ekey in Hread.
    - by apply register_returns. }
  rewrite Ht. simpl. rewrite Ht.
  destruct (Dict_new t (heap w1)) as [d h] eqn:Ed.
  destruct Hw1 as [Hclosed1 _].
  destruct (Hcopies _ _ _ _ Hclosed1 (read_val_ok _ _ _ _ Htr) Ed) as (Hc & _ & Hrd).
  rewrite <- Hrd in Htr.
  destruct (deepcopy_returns recursion_limit n d h tr Hc Htr Hn) as [[o h'] ->].
  eauto.
Qed.

(** C2: once a key has a stored template, registering again, with any
    explicit template, does nothing, and [get_template_options] leaves the
    stored templates and every existing dictionary as they were. *)
Theorem registration_idempotent {C : Collaborators} (cls : pyclass) (key : string)
    (template_key : option string) (component_template : option loc)
    (logger_ : option string) (w : World Ext) (t : loc) :
  Dict_new_allocates →
  template_options w !! key = Some t →
  _register_class_with_design cls key component_template w = (Normal (), w) ∧
  (resolve_key cls template_key = key →
   template_options
     (get_template_options cls component_template logger_ template_key w).2
     = template_options w ∧
   heap_extends (heap w)
     (heap (get_template_options cls component_template logger_ template_key w).2)).
Proof.
  intros HDict Hkey. split.
  - unfold _register_class_with_design. by rewrite Hkey.
  - intros Hr. unfold get_template_options. rewrite Hr, Hkey. simpl. rewrite !Hkey.
    destruct (Dict_new t (heap w)) as [d h] eqn:Ed.
    pose proof (HDict _ _ _ _ Ed) as Hext.
    destruct (deepcopy recursion_limit d h) as [[o h']|] eqn:Ecopy; simpl.
    + split; [done|]. eapply heap_extends_trans; [done|]. by eapply deepcopy_extends.
    + done.
Qed.

(** C10: an explicit template that is empty is as no template: the merged
    defaults of the ancestry are what is copied and stored, and they are
    stored whenever they nest no deeper than [deepcopy] can follow. *)
Theorem register_falsy_template {C : Collaborators} (cls : pyclass) (key : string)
    (component_template : option loc) (w : World Ext) :
  truthy w component_template = false →
  _register_class_with_design cls key component_template w =
    _register_class_with_design cls key None w ∧
  (template_options w !! key = None → world_ok w →
   dict_ok (heap w) (_gather_all_children_options cls) →
   (∀ k, is_Some (read_dict k (heap w) (_gather_all_children_options cls)) →
         S k ≤ recursion_limit →
         ∃ w', _register_class_with_design cls key component_template w
               = (Normal (), w')) ∧
   (∀ w', _register_class_with_design cls key component_template w = (Normal (), w') →
      ∃ t, template_options w' !! key = Some t ∧
           ∀ n, read (S n) (heap w') (VRef t) =
                read_dict n (heap w) (_gather_all_children_options cls))).
Proof.
  intros Hfalsy.
  assert (_register_class_with_design cls key component_template w =
          _register_class_with_design cls key None w) as Heq.
  { unfold _register_class_with_design.
    destruct component_template as [l|]; [|done]. by rewrite Hfalsy. }
  split; [done|]. rewrite Heq. clear Heq Hfalsy.
  intros Hkey Hw Hok. split.
  - intros k Hk Hlimit.
    destruct (register_returns cls key None w (S k) Hw Hok Hkey) as (w' & _ & ? & _);
      [|done|by exists w'].
    unfold copies_within. rewrite Hkey. simpl. eauto.
  - destruct Hw as [Hclosed Htempl]. intros w'.
    unfold _register_class_with_design. rewrite Hkey.
    destruct (alloc _ (heap w)) as [l h1] eqn:Halloc. simpl.
    destruct (alloc_spec _ _ _ _ Halloc) as (_ & Hl & Hext1).
    pose proof (alloc_closed _ _ _ _ Hclosed Hok Halloc) as Hc1.
    destruct (deepcopy recursion_limit l h1) as [[t h']|] eqn:Ecopy; [|done].
    intros [= <-].
    destruct (deepcopy_spec _ _ _ _ _ Hc1 (mk_is_Some _ _ Hl) Ecopy)
      as (_ & _ & _ & Hread & _).
    exists t. split; [simpl; by rewrite lookup_insert_eq|].
    intros n.
    change (read (S n) h' (VRef t) =
            read_dict n (heap w) (_gather_all_children_options cls)).
    rewrite Hread. by apply read_alloc.
Qed.

(** The copy handed out once the key has its template. *)
Lemma template_copy_spec {C : Collaborators} (w : World Ext) t d h o h' :
  Dict_new_allocates → Dict_new_copies →
  world_ok w → is_Some (heap w !! t) →
  Dict_new t (heap w) = (d, h) →
  deepcopy recursion_limit d h = Some (o, h') →
  (∀ n, read n h' (VRef o) = read n h' (VRef t)) ∧
  (∀ y, reach h' t y → is_Some (h' !! y) ∧ ¬ reach h' o y).
Proof.
  intros Halloc Hcopies [Hclosed _] Ht Ed Ecopy.
  pose proof (Halloc _ _ _ _ Ed) as Hext1.
  destruct (Hcopies _ _ _ _ Hclosed Ht Ed) as (Hc1 & Hd & Hread1).
  destruct (deepcopy_spec _ _ _ _ _ Hc1 Hd Ecopy) as (Hext2 & Hc2 & _ & Hread2 & Hnew).
  destruct Ht as [es Hes]. pose proof (Hext1 _ _ Hes) as Ht1.
  split.
  - intros n. rewrite Hread2, Hread1. symmetry.
    rewrite (read_extends n h h') by eauto. apply read_extends; eauto.
  - intros y Hy.
    assert (is_Some (h !! y)) as [ys Hys]
      by (apply (reach_closed h h' t y Hc1 Hext2); eauto).
    split; [exists ys; by apply Hext2|].
    intros Hoy. apply Hnew in Hoy. congruence.
Qed.

(** The state stays well formed. *)
Lemma get_template_options_ok {C : Collaborators} cls ct lg tk (w w' : World Ext) o :
  Dict_new_allocates → Dict_new_copies →
  world_ok w → dict_ok (heap w) (_gather_all_children_options cls) →
  get_template_options cls ct lg tk w = (Normal o, w') →
  world_ok w' ∧ heap_extends (heap w) (heap w').
Proof.
  intros Halloc Hcopies Hw Hok. unfold get_template_options.
  set (key := resolve_key cls tk).
  destruct (match template_options w !! key with
            | Some _ => (Normal (), w)
            | None => _register_class_with_design cls key ct w
            end) as [[[]|e] w1] eqn:Ereg; [|done].
  assert (world_ok w1 ∧ heap_extends (heap w) (heap w1) ∧
          is_Some (template_options w1 !! key)) as (Hw1 & Hext1 & [t Ht]).
  { destruct (template_options w !! key) as [t0|] eqn:Ekey.
    - injection Ereg as <-. split_and!; [done | apply heap_extends_refl |].
      by rewrite Ekey.
    - by apply (register_ok cls key ct). }
  rewrite Ht. simpl. rewrite Ht.
  destruct (Dict_new t (heap w1)) as [d h] eqn:Ed.
  destruct (deepcopy recursion_limit d h) as [[o' h']|] eqn:Ecopy; [|done].
  intros [= <- <-]. simpl.
  destruct Hw1 as [Hclosed1 Htempl1].
  destruct (Hcopies _ _ _ _ Hclosed1 (Htempl1 _ _ Ht) Ed) as (Hc & Hd & _).
  destruct (deepcopy_spec _ _ _ _ _ Hc Hd Ecopy) as (Hext3 & Hc' & _).
  pose proof (Halloc _ _ _ _ Ed) as Hext2.
  split_and!.
  - split; [done|]. simpl. intros k t0 Hk.
    destruct (Htempl1 _ _ Hk) as [es Hes]. exists es. by apply Hext3, Hext2.
  - eapply heap_extends_trans; [done|]. by eapply heap_extends_trans.
Qed.

(** C9: [get_template_options] returns whenever what it copies nests no
    deeper than [deepcopy] can follow; the options it returns read as the
    stored template and share no dictionary with it, at any depth; so
    whatever is written to the dictionaries of the returned options, the
    constructor's [update] with the caller's overrides included, the
    stored template reads as before. *)
Theorem get_template_options_deep_copy {C : Collaborators} (cls : pyclass)
    (component_template : option loc) (logger_ : option string)
    (template_key : option string) (w : World Ext) :
  Dict_new_allocates → Dict_new_copies → Dict_update_local →
  world_ok w → dict_ok (heap w) (_gather_all_children_options cls) →
  (∀ n, copies_within n cls (resolve_key cls template_key) component_template w →
        n ≤ recursion_limit →
        ∃ options w',
          get_template_options cls component_template logger_ template_key w
          = (Normal options, w')) ∧
  (∀ options w',
     get_template_options cls component_template logger_ template_key w
       = (Normal options, w') →
     ∃ t, template_options w' !! resolve_key cls template_key = Some t ∧
          (∀ n, read n (heap w') (VRef options) = read n (heap w') (VRef t)) ∧
          (∀ y, reach (heap w') options y → ¬ reach (heap w') t y) ∧
          (∀ h2 n,
             (∀ y, is_Some (heap w' !! y) → ¬ reach (heap w') options y →
                   h2 !! y = heap w' !! y) →
             read n h2 (VRef t) = read n (heap w') (VRef t)) ∧
          (∀ other n,
             read n (Dict_update options other (heap w')) (VRef t)
             = read n (heap w') (VRef t))).
Proof.
  intros Halloc Hcopies Hupdate Hw Hok. split.
  { intros n Hread Hn. by eapply get_template_options_returns. }
  intros options w'. unfold get_template_options.
  set (key := resolve_key cls template_key).
  destruct (match template_options w !! key with
            | Some _ => (Normal (), w)
            | None => _register_class_with_design cls key component_template w
            end) as [[[]|e] w1] eqn:Ereg; [|done].
  assert (world_ok w1 ∧ is_Some (template_options w1 !! key)) as [Hw1 [t Ht]].
  { destruct (template_options w !! key) as [t0|] eqn:Ekey.
    - injection Ereg as <-. split; [done|]. by rewrite Ekey.
    - by destruct (register_ok _ _ _ _ _ Hw Hok Ereg) as (? & _ & ?). }
  rewrite Ht. simpl. rewrite Ht.
  destruct (Dict_new t (heap w1)) as [d h] eqn:Ed.
  destruct (deepcopy recursion_limit d h) as [[o h']|] eqn:Ecopy; [|done].
  intros [= <- <-]. simpl.
  assert (is_Some (heap w1 !! t)) as Htobj by (destruct Hw1 as [_ Hw1]; eauto).
  destruct (template_copy_spec _ _ _ _ _ _ Halloc Hcopies Hw1 Htobj Ed Ecopy)
    as [Hread Hsep].
  assert (∀ h2 n,
            (∀ y, is_Some (h' !! y) → ¬ reach h' o y → h2 !! y = h' !! y) →
            read n h2 (VRef t) = read n h' (VRef t)) as Hframe.
  { intros h2 n Hsame. apply read_frame. intros y Hy.
    destruct (Hsep _ Hy). by apply Hsame. }
  exists t. split_and!; [done | done | | done |].
  - intros y Hoy Hty. by destruct (Hsep _ Hty).
  - intros other n. apply Hframe. intros y Hy Hny. by apply Hupdate.
Qed.

(** ** Pins *)

(** C3: [make_pin] on the points (0,0), (2,0): width 2, tangent (1,0),
    midpoint (1,0), a unit normal orthogonal to the tangent; [flip] negates
    the normal and changes nothing else; [net_id] starts at 0. *)
Theorem make_pin_two_points (parent_name chip : string) :
  (∃ pin, make_pin [(0, 0); (2, 0)]%float parent_name false chip = Normal pin ∧
          width pin = 2%float ∧ tangent pin = (1, 0)%float ∧
          middle pin = (1, 0)%float ∧
          vec_norm (normal pin) = 1%float ∧
          vec_dot (normal pin) (tangent pin) = 0%float) ∧
  (∀ points,
     make_pin points parent_name true chip =
       match make_pin points parent_name false chip with
       | Normal pin => Normal (with_normal (vec_neg (normal pin)) pin)
       | Raised e => Raised e
       end) ∧
  (∀ points flip,
     match make_pin points parent_name flip chip with
     | Normal pin => net_id pin = 0%Z
     | Raised _ => length points ≠ 2
     end).
Proof.
  split_and!.
  - eexists. split; [reflexivity|]. by split_and!.
  - intros [|p0 [|p1 [|p2 ps]]]; reflexivity.
  - intros [|p0 [|p1 [|p2 ps]]] flip; simpl; done.
Qed.

(** ** Geometry queries *)

(** C7: for a kind the geometry tables do not know, [elements_dict] and
    [elements_table] return [None] after the one call that checks the
    kind; nothing is retrieved and nothing is raised. *)
Theorem elements_unknown_kind {C : Collaborators} (self : addr) (kind : string)
    (w : World Ext) :
  check_element_type kind (ext w) = false →
  elements_dict self kind w = (Normal None, log_call (CallCheckElementType kind) w) ∧
  elements_table self kind w = (Normal None, log_call (CallCheckElementType kind) w) ∧
  calls (elements_dict self kind w).2 = calls w ++ [CallCheckElementType kind] ∧
  calls (elements_table self kind w).2 = calls w ++ [CallCheckElementType kind].
Proof.
  intros Hkind. unfold elements_dict, elements_table. simpl.
  by rewrite Hkind.
Qed.

(** ** The constructor and the build *)


Lemma objects_update {Ext} self f (w : World Ext) c :
  objects w !! self = Some c →
  objects (update_object self f w) !! self = Some (f c).
Proof.
  intros Hc. unfold update_object. simpl. by rewrite lookup_alter_eq, Hc.
Qed.

(** [do_make] is [make] between [make_entry] and [make_exit]. *)
Lemma do_make_unfold {C : Collaborators} self w c :
  objects w !! self = Some c →
  do_make self w =
    match make self (make_entry self w) with
    | (Raised e, w1) => (Raised e, w1)
    | (Normal _, w1) => (Normal (), make_exit (negb (_made c)) self w1)
    end.
Proof.
  intros Hc. unfold do_make, make_entry.
  rewrite (objects_update _ _ _ _ Hc). simpl.
  destruct (_made c); simpl;
    by destruct (make _ _) as [[[]|e] w1].
Qed.

Lemma make_entry_object {C : Collaborators} self w c :
  objects w !! self = Some c →
  objects (make_entry self w) !! self = Some (set_status "failed" c).
Proof.
  intros Hc. unfold make_entry. rewrite (objects_update _ _ _ _ Hc). simpl.
  destruct (_made c); simpl; by apply objects_update.
Qed.



(** C6: before invoking [make], [do_make] on a component already built
    sends the geometry tables one [delete_component] with the id of the
    component, and on a first build none; after [make] it sends nothing.
    [rebuild] is [do_make]. *)
Theorem do_make_purges {C : Collaborators} (self : addr) (w : World Ext)
    (c : QComponent) :
  objects w !! self = Some c →
  calls (make_entry self w) =
    calls w ++ (if _made c then [CallDeleteComponent (_id c)] else [])
            ++ [CallMake self] ∧
  ext (make_entry self w) =
    (if _made c then delete_component (_id c) (ext w) else ext w) ∧
  do_make self w =
    match make self (make_entry self w) with
    | (Raised e, w1) => (Raised e, w1)
    | (Normal _, w1) => (Normal (), make_exit (negb (_made c)) self w1)
    end ∧
  calls (do_make self w).2 = calls (make self (make_entry self w)).2 ∧
  rebuild self w = do_make self w.
Proof.
  intros Hc. split_and!; [| | | |done].
  - unfold make_entry. rewrite (objects_update _ _ _ _ Hc). simpl.
    destruct (_made c); simpl; [by rewrite <- app_assoc | done].
  - unfold make_entry. rewrite (objects_update _ _ _ _ Hc). simpl.
    by destruct (_made c).
  - by apply do_make_unfold.
  - rewrite (do_make_unfold _ _ _ Hc).
    destruct (make self (make_entry self w)) as [[[]|e] w1]; [|done].
    unfold make_exit. by destruct (_made c).
Qed.



(** C8: on an argument that is no design the constructor fails, with the
    [AssertionError] of its first statement, and leaves the state as it
    found it: nothing is registered, nothing is changed. *)
Theorem init_invalid_design {C : Collaborators} (cls : pyclass) (design : PyObj)
    (name : string) (options : option loc) (make : bool)
    (component_template : option loc) (w : World Ext) :
  is_design design = false →
  __init__ cls design name options make component_template w =
    (Raised (AssertionError invalid_design_message), w).
Proof.
  intros Hdesign. unfold __init__. by rewrite Hdesign.
Qed.

(** ** Instances *)



(** *** The collaborators of the example meet the assumptions *)

Lemma shallow_Dict_allocates mk : Dict_new_allocates (C := Example.collaborators mk).
Proof.
  intros l h d h' Hd. simpl in Hd. unfold Example.shallow_Dict in Hd.
  by destruct (alloc_spec _ _ _ _ Hd) as (_ & _ & ?).
Qed.

Lemma shallow_Dict_copies mk : Dict_new_copies (C := Example.collaborators mk).
Proof.
  intros l h d h' Hclosed [es Hes] Hd. simpl in Hd. unfold Example.shallow_Dict in Hd.
  rewrite Hes in Hd. simpl in Hd.
  destruct (alloc_spec _ _ _ _ Hd) as (_ & Hd' & Hext).
  pose proof (Hclosed _ _ Hes) as Hok. simpl in Hok.
  split_and!; [by apply (alloc_closed es h d h') | eauto |].
  intros [|n]; [done|]. rewrite !read_S, Hd', Hes. simpl.
  apply read_dict_same. intros k [s|x] Hin; [by destruct n|].
  apply read_extends; [done..|].
  unfold dict_ok in Hok. rewrite Forall_forall in Hok. apply (Hok _ Hin).
Qed.

Lemma plain_update_local mk : Dict_update_local (C := Example.collaborators mk).
Proof.
  intros o other h l Hl Hreach. simpl. unfold Example.plain_update.
  destruct (h !! o) as [d|]; [|done]. destruct (h !! other) as [e|]; [|done].
  apply lookup_insert_ne. intros <-. apply Hreach, rtc_refl.
Qed.

Lemma make_ok_keeps_status :
  make_keeps_status (C := Example.collaborators Example.make_ok).
Proof. intros self w r w' c [= <- <-] Hc. exists c. by split_and!. Qed.


Lemma world1_ok : world_ok Example.world1.
Proof.
  split; [|intros k t Hk; cbn in Hk; by rewrite lookup_empty in Hk].
  refine (bool_decide_unpack _ _). vm_compute. exact I.
Qed.

(** *** The theorems at work on the example *)

Lemma registration_idempotent_witness :
  template_options Example.registered !! Example.key = Some 6%positive ∧
  read 2 (heap Example.registered) (VRef 6%positive) =
    Some (TDict [("pad_gap", TStr "5um"); ("pads", TDict [("loc_W", TStr "-1")])]) ∧
  _register_class_with_design (C := Example.C_ok) Example.cls Example.key
    (Some 5%positive) Example.registered = (Normal (), Example.registered) ∧
  (resolve_key Example.cls None = Example.key →
   template_options
     (get_template_options (C := Example.C_ok) Example.cls (Some 5%positive)
        None None Example.registered).2
     = template_options Example.registered ∧
   heap_extends (heap Example.registered)
     (heap (get_template_options (C := Example.C_ok) Example.cls
              (Some 5%positive) None None Example.registered).2)).
Proof.
  assert (template_options Example.registered !! Example.key = Some 6%positive)
    as Hkey by (vm_compute; reflexivity).
  split; [exact Hkey|]. split; [vm_compute; reflexivity|].
  exact (registration_idempotent (C := Example.C_ok) Example.cls Example.key None
           (Some 5%positive) None Example.registered 6%positive
           (shallow_Dict_allocates _) Hkey).
Defined.


Lemma do_make_purges_witness :
  objects Example.built !! 1%positive = Some (Example.q1 "good" true) ∧
  calls (make_entry (C := Example.C_ok) 1%positive Example.built) =
    calls Example.built ++ [CallDeleteComponent 1] ++ [CallMake 1%positive] ∧
  ext (make_entry (C := Example.C_ok) 1%positive Example.built) =
    delete_component (Collaborators := Example.C_ok) 1 (ext Example.built) ∧
  do_make (C := Example.C_ok) 1%positive Example.built =
    match make (Collaborators := Example.C_ok) 1%positive
            (make_entry (C := Example.C_ok) 1%positive Example.built) with
    | (Raised e, w1) => (Raised e, w1)
    | (Normal _, w1) => (Normal (), make_exit false 1%positive w1)
    end ∧
  calls (do_make (C := Example.C_ok) 1%positive Example.built).2 =
    calls (make (Collaborators := Example.C_ok) 1%positive
             (make_entry (C := Example.C_ok) 1%positive Example.built)).2 ∧
  rebuild (C := Example.C_ok) 1%positive Example.built =
    do_make (C := Example.C_ok) 1%positive Example.built.
Proof.
  assert (objects Example.built !! 1%positive = Some (Example.q1 "good" true))
    as Hobj by (vm_compute; reflexivity).
  split; [exact Hobj|].
  exact (do_make_purges (C := Example.C_ok) 1%positive Example.built _ Hobj).
Defined.



Lemma elements_unknown_kind_witness :
  check_element_type (Collaborators := Example.C_ok) "bogus" (ext Example.built) = false ∧
  elements_dict (C := Example.C_ok) 1%positive "bogus" Example.built =
    (Normal None, log_call (CallCheckElementType "bogus") Example.built) ∧
  elements_table (C := Example.C_ok) 1%positive "bogus" Example.built =
    (Normal None, log_call (CallCheckElementType "bogus") Example.built) ∧
  calls (elements_dict (C := Example.C_ok) 1%positive "bogus" Example.built).2 =
    calls Example.built ++ [CallCheckElementType "bogus"] ∧
  calls (elements_table (C := Example.C_ok) 1%positive "bogus" Example.built).2 =
    calls Example.built ++ [CallCheckElementType "bogus"].
Proof.
  assert (check_element_type (Collaborators := Example.C_ok) "bogus"
            (ext Example.built) = false) as Hkind by reflexivity.
  split; [exact Hkind|].
  exact (elements_unknown_kind (C := Example.C_ok) 1%positive "bogus" Example.built Hkind).
Defined.

Lemma init_invalid_design_witness :
  is_design (Collaborators := Example.C_ok) Example.NotADesign = false ∧
  __init__ (C := Example.C_ok) Example.cls Example.NotADesign "Q1"
    (Some 5%positive) true None Example.world1
  = (Raised (AssertionError invalid_design_message), Example.world1).
Proof.
  assert (is_design (Collaborators := Example.C_ok) Example.NotADesign = false)
    as Hdesign by reflexivity.
  split; [exact Hdesign|].
  exact (init_invalid_design (C := Example.C_ok) Example.cls Example.NotADesign "Q1"
           (Some 5%positive) true None Example.world1 Hdesign).
Defined.

Lemma get_template_options_deep_copy_witness :
  get_template_options (C := Example.C_ok) Example.cls (Some 2%positive) None None
    Example.world1 = (Normal 9%positive, Example.looked_up) ∧
  (∃ options w',
     get_template_options (C := Example.C_ok) Example.cls (Some 2%positive) None None
       Example.world1 = (Normal options, w')) ∧
  ∃ t, template_options Example.looked_up !! resolve_key Example.cls None = Some t ∧
       (∀ n, read n (heap Example.looked_up) (VRef 9%positive)
             = read n (heap Example.looked_up) (VRef t)) ∧
       (∀ y, reach (heap Example.looked_up) 9%positive y →
             ¬ reach (heap Example.looked_up) t y) ∧
       (∀ h2 n,
          (∀ y, is_Some (heap Example.looked_up !! y) →
                ¬ reach (heap Example.looked_up) 9%positive y →
                h2 !! y = heap Example.looked_up !! y) →
          read n h2 (VRef t) = read n (heap Example.looked_up) (VRef t)) ∧
       (∀ other n,
          read n (Dict_update (Collaborators := Example.C_ok) 9%positive other
                    (heap Example.looked_up)) (VRef t)
          = read n (heap Example.looked_up) (VRef t)).
Proof.
  assert (get_template_options (C := Example.C_ok) Example.cls (Some 2%positive)
            None None Example.world1 = (Normal 9%positive, Example.looked_up))
    as Hget by (vm_compute; reflexivity).
  assert (dict_ok (heap Example.world1) (_gather_all_children_options Example.cls))
    as Hok by (refine (bool_decide_unpack _ _); vm_compute; exact I).
  assert (copies_within 2 Example.cls (resolve_key Example.cls None)
            (Some 2%positive) Example.world1) as Hread
    by (exists 2%positive; split; [reflexivity | vm_compute; eauto]).
  destruct (get_template_options_deep_copy (C := Example.C_ok) Example.cls
              (Some 2%positive) None None Example.world1
              (shallow_Dict_allocates _) (shallow_Dict_copies _)
              (plain_update_local _) world1_ok Hok) as [Hreturns Hcopy].
  split; [exact Hget|]. split; [|exact (Hcopy _ _ Hget)].
  apply (Hreturns 2 Hread). simpl. lia.
Defined.

Lemma register_falsy_template_witness :
  truthy Example.world1 (Some 4%positive) = false ∧
  _register_class_with_design (C := Example.C_ok) Example.cls Example.key
    (Some 4%positive) Example.world1 =
    _register_class_with_design (C := Example.C_ok) Example.cls Example.key None
      Example.world1 ∧
  ∃ w' t,
    _register_class_with_design (C := Example.C_ok) Example.cls Example.key
      (Some 4%positive) Example.world1 = (Normal (), w') ∧
    template_options w' !! Example.key = Some t ∧
    ∀ n, read (S n) (heap w') (VRef t) =
         read_dict n (heap Example.world1) (_gather_all_children_options Example.cls).
Proof.
  assert (truthy Example.world1 (Some 4%positive) = false) as Hfalsy
    by (vm_compute; reflexivity).
  assert (template_options Example.world1 !! Example.key = None) as Hkey
    by (vm_compute; reflexivity).
  assert (dict_ok (heap Example.world1) (_gather_all_children_options Example.cls))
    as Hok by (refine (bool_decide_unpack _ _); vm_compute; exact I).
  assert (is_Some (read_dict 1 (heap Example.world1)
                     (_gather_all_children_options Example.cls))) as Hread
    by (vm_compute; eauto).
  destruct (register_falsy_template (C := Example.C_ok) Example.cls Example.key
              (Some 4%positive) Example.world1 Hfalsy) as [Heq Hstore].
  destruct (Hstore Hkey world1_ok Hok) as [Hreturns Hstored].
  split; [exact Hfalsy|]. split; [exact Heq|].
  destruct (Hreturns 1 Hread) as [w' Hw']; [simpl; lia|].
  destruct (Hstored w' Hw') as (t & Ht & Hrd).
  exists w', t. by split_and!.
Defined.

(** * Further properties of the component *)

(** ** The resolver under any inheritance *)

Lemma keys_rev (o : dictobj) k : k ∈ (rev o).*1 ↔ k ∈ o.*1.
Proof.
  induction o as [|[k0 v0] o IH]; simpl; [done|].
  rewrite fmap_app, elem_of_app, IH. simpl. set_solver.
Qed.

Lemma dict_update_keys_elem (o d : dictobj) k :
  k ∈ (dict_update d o).*1 ↔ k ∈ d.*1 ∨ k ∈ o.*1.
Proof.
  split.
  - intros Hin. destruct (decide (k ∈ o.*1)) as [|Ho]; [by right|left].
    destruct (decide (k ∈ d.*1)) as [|Hd]; [done|exfalso].
    assert (dict_get (dict_update d o) k = None) as Hnone.
    { rewrite dict_get_update.
      assert (dict_get (rev o) k = None) as ->.
      { apply dict_get_None. by rewrite keys_rev. }
      by apply dict_get_None. }
    by apply dict_get_None in Hnone.
  - intros [Hd|Ho]; [by apply dict_update_keys_l | by apply dict_update_keys_r].
Qed.

Lemma dict_display_keys_elem (acc d : dictobj) k :
  k ∈ (dict_display acc d).*1 ↔ k ∈ acc.*1 ∨ k ∈ d.*1.
Proof.
  unfold dict_display. rewrite !dict_update_keys_elem. set_solver.
Qed.

Lemma step_attr_keys c acc k :
  k ∈ (step_attr c acc).*1 ↔
  k ∈ acc.*1 ∨ ∃ d, getattr_default_options c = Some d ∧ k ∈ d.*1.
Proof.
  unfold step_attr. destruct (getattr_default_options c) as [d|].
  - rewrite dict_display_keys_elem. naive_solver.
  - naive_solver.
Qed.

Lemma fold_step_attr_keys (l : list pyclass) k :
  k ∈ (foldr step_attr [] l).*1 ↔
  ∃ c d, c ∈ l ∧ getattr_default_options c = Some d ∧ k ∈ d.*1.
Proof.
  induction l as [|x l IH]; simpl.
  - split; [by intros ?%elem_of_nil | by intros (c & d & ?%elem_of_nil & _)].
  - rewrite step_attr_keys, IH. split.
    + intros [(c & d & Hc & Hd)|(d & Hd)].
      * exists c, d. split; [by right | done].
      * exists x, d. split; [by left | done].
    + intros (c & d & Hc & Hd). apply elem_of_cons in Hc as [->|Hc]; [right|left]; eauto.
Qed.

Lemma find_default_options_Some (mro : list pyclass) d :
  find_default_options mro = Some d →
  ∃ c, c ∈ mro ∧ own_default_options c = Some d.
Proof.
  induction mro as [|x mro IH]; simpl; [done|].
  destruct (own_default_options x) as [dx|] eqn:Ex.
  - intros [= <-]. exists x. split; [by left | done].
  - intros (c & Hc & Hd)%IH. exists c. split; [by right | done].
Qed.

(** The resolver in two shapes: on [object] alone, and on a longer MRO. *)
Lemma gather_cases (cls : pyclass) :
  ∃ l root, getmro cls = l ++ [root] ∧
            _gather_all_children_options cls =
              foldr step_attr [] (if decide (l = []) then [cls] else l).
Proof.
  destruct (mro_split cls) as (l & root & Hmro & _). exists l, root.
  split; [done|]. case_decide as Hl.
  - subst l. unfold getmro in Hmro. simpl in Hmro. injection Hmro as _ Htl.
    unfold _gather_all_children_options, getmro. rewrite Htl. reflexivity.
  - by destruct (gather_as_foldr l cls root Hmro Hl).
Qed.

(** X1: under any inheritance whose MROs are consistent, the resolved
    template has exactly the keys that the classes of the MRO define in
    their own [default_options]: no key is lost and none comes from
    elsewhere; only the values depend on the order of the merges. *)
Theorem gather_keys (cls : pyclass) (k : string) :
  mro_consistent cls →
  (∀ root, last (getmro cls) = Some root → own_default_options root = None) →
  k ∈ (_gather_all_children_options cls).*1 ↔
  ∃ c d, c ∈ getmro cls ∧ own_default_options c = Some d ∧ k ∈ d.*1.
Proof.
  intros Hcons Hroot.
  destruct (mro_split cls) as (l0 & root0 & Hmro0 & Hlast).
  specialize (Hroot _ Hlast).
  destruct (gather_cases cls) as (l & root & Hmro & ->).
  assert (l0 = l ∧ root0 = root) as [-> ->].
  { rewrite Hmro0 in Hmro. by apply app_inj_tail in Hmro. }
  rewrite fold_step_attr_keys. split.
  - intros (c & d & Hc & Hd & Hk).
    assert (c ∈ getmro cls) as Hin.
    { case_decide as Hl; [apply list_elem_of_singleton in Hc as ->; by left|].
      rewrite Hmro. apply elem_of_app. by left. }
    apply find_default_options_Some in Hd as (c' & Hc' & Hown).
    exists c', d. split_and!; [|done..]. by apply (Hcons c Hin).
  - intros (c & d & Hc & Hown & Hk).
    assert (c ∈ l) as Hin.
    { rewrite Hmro in Hc. apply elem_of_app in Hc as [|Hc]; [done|].
      apply list_elem_of_singleton in Hc as ->. congruence. }
    exists c, d. split_and!; [|  |done].
    + case_decide as Hl; [subst l; by apply elem_of_nil in Hin | done].
    + unfold getattr_default_options, getmro. simpl. by rewrite Hown.
Qed.

(** X2: whatever the hierarchy, a key the class defines in its own
    [default_options] reads, in the resolved template, the value the class
    gives it. *)
Theorem gather_own_class_wins (cls : pyclass) (d : dictobj) (k : string) (v : val) :
  own_default_options cls = Some d → NoDup d.*1 → dict_get d k = Some v →
  dict_get (_gather_all_children_options cls) k = Some v.
Proof.
  intros Hown Hd Hk.
  destruct (gather_cases cls) as (l & root & Hmro & ->).
  assert (∃ r, (if decide (l = []) then [cls] else l) = cls :: r) as [r ->].
  { case_decide as Hl; [by exists []|].
    destruct l as [|x l]; [done|]. unfold getmro in Hmro. simpl in Hmro.
    injection Hmro as <- _. by exists l. }
  simpl. unfold step_attr at 1, getattr_default_options, getmro. simpl.
  rewrite Hown. unfold dict_display.
  rewrite dict_get_update, dict_get_rev, Hk by done. done.
Qed.

Lemma single_inheritance_app l1 l2 :
  single_inheritance (l1 ++ l2) → single_inheritance l2.
Proof. induction l1 as [|x l1 IH]; simpl; [done|]. intros [_ H]. by apply IH. Qed.

(** X3: along a single-inheritance chain the template of a class is the
    template of its parent overlaid with the class's own [default_options];
    a class that defines none has the template of its parent. *)
Theorem gather_extends_parent (child parent : pyclass) (rest : list pyclass) :
  mro_tail child = parent :: rest →
  single_inheritance (getmro child) →
  (∀ root, last (getmro child) = Some root → own_default_options root = None) →
  _gather_all_children_options child =
    match own_default_options child with
    | Some d => dict_display (_gather_all_children_options parent) d
    | None => _gather_all_children_options parent
    end.
Proof.
  intros Htl Hchain Hroot.
  destruct (mro_split child) as (l0 & root0 & Hmro0 & Hlast).
  specialize (Hroot _ Hlast).
  unfold getmro in Hchain, Hmro0. rewrite Htl in Hchain, Hmro0.
  destruct Hchain as [_ Hchain].
  assert (getmro parent = parent :: rest) as Hpmro.
  { unfold getmro. simpl in Hchain. by destruct Hchain as [-> _]. }
  destruct l0 as [|x l0]; [by destruct rest|].
  simpl in Hmro0. injection Hmro0 as <- Hrest.
  assert (getmro child = (child :: l0) ++ [root0]) as Hcmro
    by (unfold getmro; rewrite Htl, Hrest; done).
  destruct (gather_as_foldr (child :: l0) child root0 Hcmro) as [-> _]; [done|].
  assert (single_inheritance ((child :: l0) ++ [root0])) as Hch.
  { simpl. split; [by rewrite Htl, Hrest|]. by rewrite <- Hrest. }
  rewrite (fold_step_attr_own _ _ Hroot Hch). simpl.
  assert (_gather_all_children_options parent = foldr step_own [] l0) as ->.
  { destruct (gather_cases parent) as (l & root & Hmro & ->).
    rewrite Hpmro, Hrest in Hmro. apply app_inj_tail in Hmro as [<- <-].
    case_decide as Hl.
    - subst l0. simpl. unfold step_attr, getattr_default_options. rewrite Hpmro.
      simpl in Hrest. injection Hrest as -> ->. simpl. by rewrite Hroot.
    - apply fold_step_attr_own with root0; [done|]. by rewrite <- Hrest. }
  unfold step_own. done.
Qed.

(** ** The key of a class *)

Lemma append_cons a (m n : string) : String a m +:+ n = String a (m +:+ n).
Proof. reflexivity. Qed.

Lemma append_nil (n : string) : EmptyString +:+ n = n.
Proof. reflexivity. Qed.

Lemma dot_free_append (m t n : string) :
  t = "." +:+ n → dot_free (m +:+ t) = false.
Proof.
  intros ->. induction m as [|a m IH]; [done|].
  rewrite append_cons. simpl. rewrite IH. apply andb_false_r.
Qed.

Lemma append_dot_inj (m1 m2 n1 n2 : string) :
  dot_free n1 = true → dot_free n2 = true →
  m1 +:+ "." +:+ n1 = m2 +:+ "." +:+ n2 → m1 = m2 ∧ n1 = n2.
Proof.
  intros H1 H2. revert m2.
  induction m1 as [|a m1 IH]; intros [|b m2]; rewrite ?append_cons, ?append_nil.
  - by intros [= ->].
  - intros [= <- ->]. by rewrite (dot_free_append m2 _ n2) in H1.
  - intros [= -> <-]. by rewrite (dot_free_append m1 _ n1) in H2.
  - intros [= <- H]. destruct (IH m2) as [-> ->]; [|done].
    by rewrite ?append_cons, ?append_nil.
Qed.

(** X4: two classes whose names hold no dot have the same template key
    only if they have the same module and the same name. *)
Theorem unique_class_name_injective (c1 c2 : pyclass) :
  dot_free (cls_name c1) = true → dot_free (cls_name c2) = true →
  _get_unique_class_name c1 = _get_unique_class_name c2 →
  cls_module c1 = cls_module c2 ∧ cls_name c1 = cls_name c2.
Proof. intros H1 H2. unfold _get_unique_class_name. by apply append_dot_inj. Qed.

(** ** Templates: what registration and lookup change *)

(** The dictionary registration copies, and the state it copies it in. *)
Lemma register_source_frame {Ext} (w : World Ext) cls ct l w1 :
  match ct with
  | Some l =>
      if truthy w (Some l) then (l, w)
      else
        let '(l', h') := alloc (_gather_all_children_options cls) (heap w) in
        (l', set_heap h' w)
  | None =>
      let '(l', h') := alloc (_gather_all_children_options cls) (heap w) in
      (l', set_heap h' w)
  end = (l, w1) →
  heap_extends (heap w) (heap w1) ∧ template_options w1 = template_options w ∧
  components w1 = components w ∧ objects w1 = objects w ∧
  ext w1 = ext w ∧ calls w1 = calls w.
Proof.
  assert (∀ l' h', alloc (_gather_all_children_options cls) (heap w) = (l', h') →
            (l', set_heap h' w) = (l, w1) →
            heap_extends (heap w) (heap w1) ∧ template_options w1 = template_options w ∧
            components w1 = components w ∧ objects w1 = objects w ∧
            ext w1 = ext w ∧ calls w1 = calls w) as Hgather.
  { intros l' h' Halloc [= <- <-]. simpl.
    by destruct (alloc_spec _ _ _ _ Halloc) as (_ & _ & Hext). }
  destruct ct as [l0|].
  - destruct (truthy w (Some l0)) eqn:Et.
    + intros [= <- <-]. split_and!; [apply heap_extends_refl | done..].
    + destruct (alloc _ _) as [l' h'] eqn:Halloc. by apply Hgather.
  - destruct (alloc _ _) as [l' h'] eqn:Halloc. by apply Hgather.
Qed.

Lemma register_frame {C : Collaborators} cls key ct (w : World Ext) r w' :
  _register_class_with_design cls key ct w = (r, w') →
  heap_extends (heap w) (heap w') ∧
  components w' = components w ∧ objects w' = objects w ∧
  ext w' = ext w ∧ calls w' = calls w ∧
  match r with
  | Normal _ =>
      template_options w' = template_options w ∧ is_Some (template_options w !! key)
      ∨ template_options w !! key = None ∧
        ∃ t, template_options w' = <[key := t]> (template_options w)
  | Raised e =>
      e = RecursionError ∧ template_options w !! key = None ∧
      template_options w' = template_options w
  end.
Proof.
  unfold _register_class_with_design.
  destruct (template_options w !! key) as [t|] eqn:Ekey.
  { intros [= <- <-]. split_and!; [apply heap_extends_refl | done.. | left; eauto]. }
  destruct (match ct with Some _ => _ | None => _ end) as [l w0] eqn:Esrc.
  destruct (register_source_frame _ _ _ _ _ Esrc) as (Hext0 & Ht0 & Hc0 & Ho0 & He0 & Hl0).
  destruct (deepcopy recursion_limit l (heap w0)) as [[t h']|] eqn:Ecopy.
  - intros [= <- <-]. simpl. split_and!; [|done..|].
    + eapply heap_extends_trans; [done|]. by eapply deepcopy_extends.
    + right. split; [done|]. exists t. by rewrite Ht0.
  - intros [= <- <-]. by split_and!.
Qed.

(** X5: registration only adds: every stored template stays under its
    key, every existing dictionary stays as it is, and no key but the one
    registered changes; when the copy fails with [RecursionError] nothing
    is stored. *)
Theorem register_only_adds {C : Collaborators} (cls : pyclass) (key : string)
    (component_template : option loc) (w : World Ext) :
  template_options w ⊆
    template_options (_register_class_with_design cls key component_template w).2 ∧
  (∀ k, k ≠ key →
     template_options (_register_class_with_design cls key component_template w).2 !! k
     = template_options w !! k) ∧
  heap_extends (heap w)
    (heap (_register_class_with_design cls key component_template w).2) ∧
  match (_register_class_with_design cls key component_template w).1 with
  | Normal _ =>
      is_Some (template_options
                 (_register_class_with_design cls key component_template w).2 !! key)
  | Raised e =>
      e = RecursionError ∧
      template_options (_register_class_with_design cls key component_template w).2
      = template_options w
  end.
Proof.
  destruct (_register_class_with_design cls key component_template w) as [r w'] eqn:E.
  destruct (register_frame _ _ _ _ _ _ E) as (Hext & _ & _ & _ & _ & Hr). simpl.
  destruct r as [[]|e].
  - destruct Hr as [[-> Hk]|[Hk [t ->]]].
    + by split_and!.
    + split_and!; [by apply insert_subseteq | | done |].
      * intros k Hne. by rewrite lookup_insert_ne.
      * rewrite lookup_insert_eq. eauto.
  - destruct Hr as (-> & _ & ->). by split_and!.
Qed.

(** X6: registering an absent key with an explicit template that is not
    empty stores a copy of that template, not of the class defaults: the
    copy reads as the template and is made of new dictionaries only, and it
    is stored whenever the template nests no deeper than [deepcopy] can
    follow. *)
Theorem register_explicit_template {C : Collaborators} (cls : pyclass) (key : string)
    (l : loc) (w : World Ext) :
  world_ok w → truthy w (Some l) = true → template_options w !! key = None →
  (∀ n, is_Some (read n (heap w) (VRef l)) → n ≤ recursion_limit →
        ∃ w', _register_class_with_design cls key (Some l) w = (Normal (), w')) ∧
  (∀ w', _register_class_with_design cls key (Some l) w = (Normal (), w') →
     ∃ t, template_options w' = <[key := t]> (template_options w) ∧
          (∀ n, read n (heap w') (VRef t) = read n (heap w) (VRef l)) ∧
          (∀ y, reach (heap w') t y → heap w !! y = None)).
Proof.
  intros [Hclosed _] Htruthy Hkey.
  pose proof Htruthy as (? & es & [= <-] & Hes)%truthy_Some.
  unfold _register_class_with_design. rewrite Hkey, Htruthy. split.
  - intros n [tr Htr] Hn.
    destruct (deepcopy_returns recursion_limit n l (heap w) tr Hclosed Htr Hn)
      as [[t h'] ->]. eauto.
  - intros w'. destruct (deepcopy recursion_limit l (heap w)) as [[t h']|] eqn:Ecopy; [|done].
    intros [= <-]. simpl.
    destruct (deepcopy_spec _ _ _ _ _ Hclosed (mk_is_Some _ _ Hes) Ecopy)
      as (_ & _ & _ & Hread & Hnew).
    by exists t.
Qed.

(** What [get_template_options] leaves alone, and how it can end. *)
Lemma get_template_options_frame {C : Collaborators} cls ct lg tk (w : World Ext) r w' :
  get_template_options cls ct lg tk w = (r, w') →
  components w' = components w ∧ objects w' = objects w ∧
  ext w' = ext w ∧ calls w' = calls w ∧
  template_options w ⊆ template_options w' ∧
  match r with
  | Normal _ => is_Some (template_options w' !! resolve_key cls tk)
  | Raised e => e = RecursionError
  end.
Proof.
  unfold get_template_options. set (key := resolve_key cls tk).
  destruct (match template_options w !! key with
            | Some _ => (Normal (), w)
            | None => _register_class_with_design cls key ct w
            end) as [r1 w1] eqn:Ereg.
  assert (components w1 = components w ∧ objects w1 = objects w ∧
          ext w1 = ext w ∧ calls w1 = calls w ∧
          template_options w ⊆ template_options w1 ∧
          match r1 with
          | Normal _ => is_Some (template_options w1 !! key)
          | Raised e => e = RecursionError
          end) as (Hc1 & Ho1 & He1 & Hl1 & Ht1 & Hr1).
  { destruct (template_options w !! key) as [t0|] eqn:Ekey.
    - injection Ereg as <- <-. split_and!; [done..|]. by rewrite Ekey.
    - destruct (register_frame _ _ _ _ _ _ Ereg) as (_ & ? & ? & ? & ? & Hr).
      split_and!; [done..| |].
      + destruct r1 as [[]|e].
        * destruct Hr as [[-> _]|[Hk [t ->]]]; [done | by apply insert_subseteq].
        * by destruct Hr as (_ & _ & ->).
      + destruct r1 as [[]|e].
        * destruct Hr as [[_ Hk]|[_ [t ->]]]; [by rewrite Ekey in Hk|].
          rewrite lookup_insert_eq. eauto.
        * by destruct Hr as (-> & _). }
  destruct r1 as [[]|e]; [|intros [= <- <-]; by split_and!].
  destruct Hr1 as [t Ht]. rewrite Ht. simpl. rewrite Ht.
  destruct (Dict_new t (heap w1)) as [d h] eqn:Ed.
  destruct (deepcopy recursion_limit d h) as [[o h']|] eqn:Ecopy;
    intros [= <- <-]; simpl; by split_and!.
Qed.

(** X7: [get_template_options] never logs the 'default options are
    missing' error and never raises [KeyError]: after a registration that
    returns, the key is present.  It sends no call and leaves the
    components, the component objects and the state of the collaborators as
    they are; the stored templates stay. *)
Theorem get_template_options_never_logs {C : Collaborators} (cls : pyclass)
    (component_template : option loc) (logger_ : option string)
    (template_key : option string) (w : World Ext) :
  calls (get_template_options cls component_template logger_ template_key w).2
    = calls w ∧
  (∀ key, (get_template_options cls component_template logger_ template_key w).1
          ≠ Raised (KeyError key)) ∧
  components (get_template_options cls component_template logger_ template_key w).2
    = components w ∧
  objects (get_template_options cls component_template logger_ template_key w).2
    = objects w ∧
  ext (get_template_options cls component_template logger_ template_key w).2 = ext w ∧
  template_options w ⊆
    template_options
      (get_template_options cls component_template logger_ template_key w).2.
Proof.
  destruct (get_template_options cls component_template logger_ template_key w)
    as [r w'] eqn:E.
  destruct (get_template_options_frame _ _ _ _ _ _ _ E) as (? & ? & ? & ? & ? & Hr).
  simpl. split_and!; [done| |done..].
  intros key ->. done.
Qed.

(** What [get_template_options] returns, and the state it leaves. *)
Lemma get_template_options_spec {C : Collaborators} cls ct lg tk (w w' : World Ext) o :
  Dict_new_allocates → Dict_new_copies →
  world_ok w → dict_ok (heap w) (_gather_all_children_options cls) →
  get_template_options cls ct lg tk w = (Normal o, w') →
  world_ok w' ∧ heap_extends (heap w) (heap w') ∧ is_Some (heap w' !! o) ∧
  (∀ y, reach (heap w') o y → heap w !! y = None) ∧
  ∃ t, template_options w' !! resolve_key cls tk = Some t ∧
       (∀ n, read n (heap w') (VRef o) = read n (heap w') (VRef t)) ∧
       (∀ t0, template_options w !! resolve_key cls tk = Some t0 → t0 = t).
Proof.
  intros Halloc Hcopies Hw Hok Hget.
  destruct (get_template_options_ok _ _ _ _ _ _ _ Halloc Hcopies Hw Hok Hget)
    as [Hw' Hext].
  revert Hget. unfold get_template_options.
  set (key := resolve_key cls tk).
  destruct (match template_options w !! key with
            | Some _ => (Normal (), w)
            | None => _register_class_with_design cls key ct w
            end) as [[[]|e] w1] eqn:Ereg; [|done].
  assert (world_ok w1 ∧ heap_extends (heap w) (heap w1) ∧
          is_Some (template_options w1 !! key) ∧
          ∀ t0, template_options w !! key = Some t0 →
                template_options w1 !! key = Some t0) as (Hw1 & Hext1 & [t Ht] & Hsame).
  { destruct (template_options w !! key) as [t0|] eqn:Ekey.
    - injection Ereg as <-. split_and!; [done | apply heap_extends_refl | |].
      + by rewrite Ekey.
      + intros t1 [= <-]. done.
    - destruct (register_ok cls key ct _ _ Hw Hok Ereg) as (? & ? & ?).
      by split_and!. }
  rewrite Ht. simpl. rewrite Ht.
  destruct (Dict_new t (heap w1)) as [d h] eqn:Ed.
  destruct (deepcopy recursion_limit d h) as [[o' h']|] eqn:Ecopy; [|done].
  intros [= <- <-]. simpl.
  destruct Hw1 as [Hclosed1 Htempl1].
  destruct (Hcopies _ _ _ _ Hclosed1 (Htempl1 _ _ Ht) Ed) as (Hc & Hd & _).
  destruct (deepcopy_spec _ _ _ _ _ Hc Hd Ecopy) as (Hext3 & Hc' & Ho & _ & Hnew).
  pose proof (Halloc _ _ _ _ Ed) as Hext2.
  destruct (template_copy_spec _ _ _ _ _ _ Halloc Hcopies (conj Hclosed1 Htempl1)
              (Htempl1 _ _ Ht) Ed Ecopy) as [Hread _].
  split_and!; [done | done | done | |].
  - intros y Hy. apply Hnew in Hy.
    destruct (heap w !! y) as [es|] eqn:Ey; [|done].
    apply Hext1, Hext2 in Ey. congruence.
  - exists t. split_and!; [done | done |].
    intros t0 Ht0. apply Hsame in Ht0. congruence.
Qed.

(** X8: the options [get_template_options] returns are made of
    dictionaries the call created: none of those reachable from them
    existed before, so they share nothing with an earlier dictionary, be it
    the caller's, a template's or another component's. *)
Theorem options_are_new_objects {C : Collaborators} (cls : pyclass)
    (component_template : option loc) (logger_ : option string)
    (template_key : option string) (w w' : World Ext) (o : loc) :
  Dict_new_allocates → Dict_new_copies →
  world_ok w → dict_ok (heap w) (_gather_all_children_options cls) →
  get_template_options cls component_template logger_ template_key w = (Normal o, w') →
  ∀ y, reach (heap w') o y → heap w !! y = None ∧ is_Some (heap w' !! y).
Proof.
  intros Halloc Hcopies Hw Hok Hget y Hy.
  destruct (get_template_options_spec _ _ _ _ _ _ _ Halloc Hcopies Hw Hok Hget)
    as ([Hc' _] & _ & Ho & Hnew & _).
  split; [by apply Hnew|].
  by apply (reach_closed (heap w') (heap w') o y Hc' (heap_extends_refl _) Ho).
Qed.

(** X9: the options returned by two successive calls of
    [get_template_options], for one class or for two, have no dictionary in
    common at any depth. *)
Theorem instances_share_nothing {C : Collaborators} (cls1 cls2 : pyclass)
    (ct1 ct2 : option loc) (lg1 lg2 tk1 tk2 : option string)
    (w w1 w2 : World Ext) (o1 o2 : loc) :
  Dict_new_allocates → Dict_new_copies → world_ok w →
  dict_ok (heap w) (_gather_all_children_options cls1) →
  dict_ok (heap w) (_gather_all_children_options cls2) →
  get_template_options cls1 ct1 lg1 tk1 w = (Normal o1, w1) →
  get_template_options cls2 ct2 lg2 tk2 w1 = (Normal o2, w2) →
  ∀ y, reach (heap w2) o1 y → reach (heap w2) o2 y → False.
Proof.
  intros Halloc Hcopies Hw Hok1 Hok2 Hget1 Hget2 y Hy1 Hy2.
  destruct (get_template_options_spec _ _ _ _ _ _ _ Halloc Hcopies Hw Hok1 Hget1)
    as (Hw1 & Hext1 & Ho1 & _).
  assert (dict_ok (heap w1) (_gather_all_children_options cls2)) as Hok2'
    by by apply dict_ok_extends with (heap w).
  destruct (get_template_options_spec _ _ _ _ _ _ _ Halloc Hcopies Hw1 Hok2' Hget2)
    as (_ & Hext2 & _ & Hnew & _).
  destruct Hw1 as [Hc1 _].
  destruct (reach_closed (heap w1) (heap w2) o1 y Hc1 Hext2 Ho1 Hy1) as [es Hes].
  apply Hnew in Hy2. congruence.
Qed.

(** X10: two successive calls that resolve to the same key return options
    that read the same, whatever class and explicit template the second
    call is given: the key is registered by then, so the defaults of the
    second class and its explicit template are ignored, and the stored
    templates are left as they are. *)
Theorem instances_read_alike {C : Collaborators} (cls1 cls2 : pyclass)
    (ct1 ct2 : option loc) (lg1 lg2 tk1 tk2 : option string)
    (w w1 w2 : World Ext) (o1 o2 : loc) :
  Dict_new_allocates → Dict_new_copies → world_ok w →
  dict_ok (heap w) (_gather_all_children_options cls1) →
  dict_ok (heap w) (_gather_all_children_options cls2) →
  resolve_key cls1 tk1 = resolve_key cls2 tk2 →
  get_template_options cls1 ct1 lg1 tk1 w = (Normal o1, w1) →
  get_template_options cls2 ct2 lg2 tk2 w1 = (Normal o2, w2) →
  template_options w2 = template_options w1 ∧
  ∀ n, read n (heap w2) (VRef o2) = read n (heap w2) (VRef o1).
Proof.
  intros Halloc Hcopies Hw Hok1 Hok2 Hkey Hget1 Hget2.
  destruct (get_template_options_spec _ _ _ _ _ _ _ Halloc Hcopies Hw Hok1 Hget1)
    as (Hw1 & Hext1 & Ho1 & _ & t1 & Ht1 & Hread1 & _).
  assert (dict_ok (heap w1) (_gather_all_children_options cls2)) as Hok2'
    by by apply dict_ok_extends with (heap w).
  destruct (get_template_options_spec _ _ _ _ _ _ _ Halloc Hcopies Hw1 Hok2' Hget2)
    as (_ & Hext2 & _ & _ & t2 & Ht2 & Hread2 & Hsame).
  rewrite Hkey in Ht1. specialize (Hsame _ Ht1) as <-.
  split.
  - revert Hget2. unfold get_template_options. rewrite Ht1. simpl. rewrite !Ht1.
    destruct (Dict_new t1 (heap w1)) as [d h].
    destruct (deepcopy recursion_limit d h) as [[o' h']|]; [|done].
    by intros [= <- <-].
  - intros n. destruct Hw1 as [Hc1 Htempl1].
    rewrite Hread2.
    rewrite (read_extends n (heap w1) (heap w2) t1 Hc1 Hext2) by eauto.
    rewrite (read_extends n (heap w1) (heap w2) o1 Hc1 Hext2) by done.
    by rewrite Hread1.
Qed.

(** ** The build, again and after a failure *)

Lemma make_entry_calls {C : Collaborators} self (w : World Ext) c :
  objects w !! self = Some c →
  calls (make_entry self w) =
    calls w ++ (if _made c then [CallDeleteComponent (_id c)] else [])
            ++ [CallMake self] ∧
  ext (make_entry self w) =
    (if _made c then delete_component (_id c) (ext w) else ext w) ∧
  components (make_entry self w) = components w.
Proof.
  intros Hc. unfold make_entry. rewrite (objects_update _ _ _ _ Hc). simpl.
  destruct (_made c); simpl; [by rewrite <- app_assoc | done].
Qed.

Lemma make_exit_object {Ext} first self (w : World Ext) c :
  objects w !! self = Some c →
  objects (make_exit first self w) !! self =
    Some (set_status "good" (if first then set_made true c else c)).
Proof.
  intros Hc. unfold make_exit. destruct first.
  - apply objects_update. by apply objects_update.
  - by apply objects_update.
Qed.

(** X11: when [make] raises on a first build, the component keeps status
    'failed' and is not marked made: the next [do_make] sends no
    [delete_component] and invokes [make] on the tables as the failed build
    left them. *)
Theorem failed_first_build_is_not_purged {C : Collaborators} (self : addr)
    (w w1 : World Ext) (c : QComponent) (e : exn) :
  make_keeps_status →
  objects w !! self = Some c → _made c = false →
  do_make self w = (Raised e, w1) →
  ∃ c1, objects w1 !! self = Some c1 ∧
        status c1 = "failed" ∧ _made c1 = false ∧
        calls (make_entry self w1) = calls w1 ++ [CallMake self] ∧
        ext (make_entry self w1) = ext w1.
Proof.
  intros Hmake Hc Hmade. rewrite (do_make_unfold _ _ _ Hc).
  pose proof (make_entry_object _ _ _ Hc) as Hentry.
  destruct (make self (make_entry self w)) as [[[]|e'] w2] eqn:E; [done|].
  intros [= <- <-].
  destruct (Hmake _ _ _ _ _ E Hentry) as (c1 & Hc1 & Hst & Hm & _).
  exists c1. simpl in Hst, Hm. rewrite Hmade in Hm.
  destruct (make_entry_calls self w2 c1 Hc1) as (Hcalls & Hext & _).
  rewrite Hm in Hcalls, Hext. by split_and!.
Qed.

(** X12: after a [do_make] that returned normally, first build or not,
    the component is marked made, has status 'good' and the id it had, and
    the next [do_make] starts with [delete_component] on that id. *)
Theorem build_then_rebuild {C : Collaborators} (self : addr)
    (w w1 : World Ext) (c : QComponent) :
  make_keeps_status →
  objects w !! self = Some c →
  do_make self w = (Normal (), w1) →
  ∃ c1, objects w1 !! self = Some c1 ∧
        status c1 = "good" ∧ _made c1 = true ∧ _id c1 = _id c ∧
        calls (make_entry self w1) =
          calls w1 ++ [CallDeleteComponent (_id c); CallMake self] ∧
        ext (make_entry self w1) = delete_component (_id c) (ext w1).
Proof.
  intros Hmake Hc. rewrite (do_make_unfold _ _ _ Hc).
  pose proof (make_entry_object _ _ _ Hc) as Hentry.
  destruct (make self (make_entry self w)) as [[[]|e'] w2] eqn:E; [|done].
  intros [= <-].
  destruct (Hmake _ _ _ _ _ E Hentry) as (c2 & Hc2 & Hst & Hm & Hid).
  simpl in Hst, Hm, Hid.
  pose proof (make_exit_object (negb (_made c)) self w2 c2 Hc2) as Hexit.
  eexists. split; [exact Hexit|].
  assert (_made (set_status "good" (if negb (_made c) then set_made true c2 else c2))
          = true) as Hmade.
  { destruct (_made c) eqn:Em; simpl; [by rewrite Hm | done]. }
  assert (_id (set_status "good" (if negb (_made c) then set_made true c2 else c2))
          = _id c) as Hid'.
  { destruct (_made c); simpl; by rewrite Hid. }
  destruct (make_entry_calls self _ _ Hexit) as (Hcalls & Hext & _).
  rewrite Hmade, Hid' in Hcalls, Hext. by split_and!.
Qed.

(** ** The constructor: what it registers, and what a failure leaves *)

Lemma add_to_design_spec {C : Collaborators} c (w w' : World Ext) self :
  _add_to_design c w = (self, w') →
  objects w !! self = None ∧
  objects w' = <[self := set_id (_get_new_qcomponent_id (ext w)).1 c]> (objects w) ∧
  components w' =
    <[(_get_new_qcomponent_id (ext w)).1 := self]> (components w) ∧
  ext w' = (_get_new_qcomponent_id (ext w)).2 ∧
  calls w' = calls w ++ [CallGetNewId] ∧
  heap w' = heap w ∧ template_options w' = template_options w.
Proof.
  unfold _add_to_design. destruct (_get_new_qcomponent_id (ext w)) as [id e].
  intros [= <- <-]. simpl. split_and!; try done.
  apply not_elem_of_dom, is_fresh.
Qed.

(** The state the constructor reaches before it builds. *)
Lemma init_before_build {C : Collaborators} cls design name opts build ct
    (w : World Ext) r w' :
  __init__ cls design name opts build ct w = (r, w') →
  is_design design = true →
  (∃ e, r = Raised e ∧ get_template_options cls ct None None w = (Raised e, w')) ∨
  ∃ o w1 w2 md self w0,
    get_template_options cls ct None None w = (Normal o, w1) ∧
    w2 = match opts with
         | Some l =>
             if truthy w1 (Some l)
             then set_heap (Dict_update o l (heap w1)) w1
             else w1
         | None => w1
         end ∧
    heap w2 !! md = None ∧
    _add_to_design
      {| _name := name; _id := 0; _class_name := _get_unique_class_name cls;
         options := o; metadata := md; status := "not built";
         _connector_names := []; _made := false; pins := [] |}
      (set_heap (<[md := []]> (heap w2)) w2) = (self, w0) ∧
    (r, w') = if build then
                match do_make self w0 with
                | (Raised e, w3) => (Raised e, w3)
                | (Normal _, w3) => (Normal self, w3)
                end
              else (Normal self, w0).
Proof.
  unfold __init__. intros Hinit Hdesign. rewrite Hdesign in Hinit. simpl in Hinit.
  destruct (get_template_options cls ct None None w) as [[o|e] w1] eqn:Eget.
  - right. set (w2 := match opts with Some _ => _ | None => _ end) in *.
    destruct (alloc [] (heap w2)) as [md h] eqn:Ealloc.
    destruct (alloc_spec _ _ _ _ Ealloc) as (Hmd & _ & _).
    unfold alloc in Ealloc. injection Ealloc as Emd <-.
    destruct (_add_to_design _ _) as [self w0] eqn:Eadd.
    exists o, w1, w2, md, self, w0. rewrite <- Emd in *.
    split_and!; [done | done | done | done |].
    destruct build; [|done]. by destruct (do_make self w0) as [[[]|e] w3].
  - left. exists e. by injection Hinit as <- <-.
Qed.

(** X13: a constructor called with [make=False] that returns has created
    one new component object and left the others alone; the object is
    registered in [design.components] under the id the design allocated,
    that request being the only call sent; it carries the given name, the
    key of its class, status 'not built', no pin, and an empty
    [metadata]. *)
Theorem init_registers {C : Collaborators} (cls : pyclass) (design : PyObj)
    (name : string) (opts component_template : option loc)
    (w w' : World Ext) (self : addr) :
  __init__ cls design name opts false component_template w = (Normal self, w') →
  objects w !! self = None ∧
  (∀ a c, objects w !! a = Some c → objects w' !! a = Some c) ∧
  ∃ c, objects w' !! self = Some c ∧
       components w' = <[_id c := self]> (components w) ∧
       (_id c, ext w') = _get_new_qcomponent_id (ext w) ∧
       calls w' = calls w ++ [CallGetNewId] ∧
       _name c = name ∧ _class_name c = _get_unique_class_name cls ∧
       status c = "not built" ∧ _made c = false ∧ pins c = [] ∧
       heap w' !! metadata c = Some [].
Proof.
  intros Hinit.
  assert (is_design design = true) as Hdesign.
  { unfold __init__ in Hinit. by destruct (is_design design). }
  destruct (init_before_build _ _ _ _ _ _ _ _ _ Hinit Hdesign)
    as [(e & [=] & _)|(o & w1 & w2 & md & self0 & w0 & Hget & Hw2 & Hmd & Hadd & [= <- <-])].
  destruct (get_template_options_frame _ _ _ _ _ _ _ Hget) as (Hc1 & Ho1 & He1 & Hl1 & _).
  assert (components w2 = components w ∧ objects w2 = objects w ∧
          ext w2 = ext w ∧ calls w2 = calls w) as (Hc2 & Ho2 & He2 & Hl2).
  { subst w2. destruct opts as [l|]; [destruct (truthy w1 (Some l))|]; by simpl. }
  destruct (add_to_design_spec _ _ _ _ Hadd) as (Hnew & Hobj & Hcomp & Hext & Hcalls & Hheap & _).
  simpl in *. rewrite Ho2 in Hnew, Hobj. rewrite Hc2 in Hcomp.
  rewrite He2 in Hext, Hobj, Hcomp. rewrite Hl2 in Hcalls.
  split; [done|]. split.
  - intros a c Ha. rewrite Hobj, lookup_insert_ne; [done|]. intros <-. congruence.
  - eexists. split; [by rewrite Hobj, lookup_insert_eq|]. simpl.
    split_and!; try done.
    + rewrite Hext. by destruct (_get_new_qcomponent_id (ext w)).
    + by rewrite Hheap, lookup_insert_eq.
Qed.

(** X14: constructed with no options, or with an empty dictionary for
    options, a component has options that read as the template stored for
    its class. *)
Theorem init_without_overrides {C : Collaborators} (cls : pyclass) (design : PyObj)
    (name : string) (opts component_template : option loc)
    (w w' : World Ext) (self : addr) :
  Dict_new_allocates → Dict_new_copies →
  world_ok w → dict_ok (heap w) (_gather_all_children_options cls) →
  truthy w opts = false → (∀ l, opts = Some l → is_Some (heap w !! l)) →
  __init__ cls design name opts false component_template w = (Normal self, w') →
  ∃ c t, objects w' !! self = Some c ∧
         template_options w' !! _get_unique_class_name cls = Some t ∧
         ∀ n, read n (heap w') (VRef (options c)) = read n (heap w') (VRef t).
Proof.
  intros Halloc Hcopies Hw Hok Hfalsy Hopts Hinit.
  assert (is_design design = true) as Hdesign.
  { unfold __init__ in Hinit. by destruct (is_design design). }
  destruct (init_before_build _ _ _ _ _ _ _ _ _ Hinit Hdesign)
    as [(e & [=] & _)|(o & w1 & w2 & md & self0 & w0 & Hget & Hw2 & Hmd & Hadd & [= <- <-])].
  destruct (get_template_options_spec _ _ _ _ _ _ _ Halloc Hcopies Hw Hok Hget)
    as ([Hc1 Htempl1] & Hext1 & Ho & _ & t & Ht & Hread & _).
  assert (w2 = w1) as ->.
  { subst w2. destruct opts as [l|]; [|done].
    destruct (Hopts l eq_refl) as [es Hes].
    unfold truthy in *. rewrite Hes in Hfalsy. by rewrite (Hext1 _ _ Hes), Hfalsy. }
  destruct (add_to_design_spec _ _ _ _ Hadd) as (_ & Hobj & _ & _ & _ & Hheap & Htemp).
  simpl in *. eexists _, t. split_and!.
  - by rewrite Hobj, lookup_insert_eq.
  - by rewrite Htemp.
  - intros n. simpl. rewrite Hheap.
    assert (heap_extends (heap w1) (<[md := []]> (heap w1))) as Hext
      by by apply heap_extends_insert_fresh.
    rewrite (read_extends n (heap w1) _ o Hc1 Hext Ho).
    rewrite (read_extends n (heap w1) _ t Hc1 Hext) by eauto.
    apply Hread.
Qed.

(** X15: a constructor called with [make=False] writes to no dictionary
    that existed before the call: the options of the caller, the templates
    and the options of the other components are as they were; and every
    stored template stays. *)
Theorem init_leaves_dictionaries {C : Collaborators} (cls : pyclass) (design : PyObj)
    (name : string) (opts component_template : option loc)
    (w w' : World Ext) (self : addr) :
  Dict_new_allocates → Dict_new_copies → Dict_update_local →
  world_ok w → dict_ok (heap w) (_gather_all_children_options cls) →
  __init__ cls design name opts false component_template w = (Normal self, w') →
  heap_extends (heap w) (heap w') ∧ template_options w ⊆ template_options w'.
Proof.
  intros Halloc Hcopies Hupdate Hw Hok Hinit.
  assert (is_design design = true) as Hdesign.
  { unfold __init__ in Hinit. by destruct (is_design design). }
  destruct (init_before_build _ _ _ _ _ _ _ _ _ Hinit Hdesign)
    as [(e & [=] & _)|(o & w1 & w2 & md & self0 & w0 & Hget & Hw2 & Hmd & Hadd & [= <- <-])].
  destruct (get_template_options_spec _ _ _ _ _ _ _ Halloc Hcopies Hw Hok Hget)
    as (_ & Hext1 & _ & Hnew & _).
  destruct (get_template_options_frame _ _ _ _ _ _ _ Hget) as (_ & _ & _ & _ & Ht1 & _).
  assert (heap_extends (heap w) (heap w2) ∧ template_options w2 = template_options w1)
    as [Hext2 Ht2].
  { subst w2. destruct opts as [l|]; [destruct (truthy w1 (Some l))|]; [|done..].
    split; [|done]. intros y es Hy. simpl.
    rewrite Hupdate; [by apply Hext1 | by rewrite (Hext1 _ _ Hy) |].
    intros Hreach. apply Hnew in Hreach. congruence. }
  destruct (add_to_design_spec _ _ _ _ Hadd) as (_ & _ & _ & _ & _ & Hheap & Htemp).
  simpl in Hheap, Htemp. rewrite Hheap, Htemp, Ht2. split; [|done].
  eapply heap_extends_trans; [done|]. by apply heap_extends_insert_fresh.
Qed.

(** X16: what a failing constructor leaves behind.  On an argument that
    is no design: the state as it was.  When the template cannot be copied
    ([RecursionError]): no component registered, no object created.  When
    [make] raises: the new component, still registered in
    [design.components] under its id, with status 'failed' and not marked
    made. *)
Theorem init_failure_leaves {C : Collaborators} (cls : pyclass) (design : PyObj)
    (name : string) (opts : option loc) (build : bool)
    (component_template : option loc) (w w' : World Ext) (e : exn) :
  make_keeps_status → make_keeps_registered →
  __init__ cls design name opts build component_template w = (Raised e, w') →
  (is_design design = false ∧ w' = w) ∨
  (e = RecursionError ∧
   get_template_options cls component_template None None w = (Raised e, w') ∧
   components w' = components w ∧ objects w' = objects w) ∨
  (build = true ∧
   ∃ self c, objects w !! self = None ∧ objects w' !! self = Some c ∧
             components w' !! _id c = Some self ∧
             status c = "failed" ∧ _made c = false).
Proof.
  intros Hmake Hreg Hinit.
  destruct (is_design design) eqn:Hdesign.
  2:{ left. unfold __init__ in Hinit. rewrite Hdesign in Hinit.
      by injection Hinit as _ <-. }
  right.
  destruct (init_before_build _ _ _ _ _ _ _ _ _ Hinit Hdesign)
    as [(e0 & [= <-] & Hget)|(o & w1 & w2 & md & self & w0 & Hget & Hw2 & Hmd & Hadd & Hres)].
  { left. destruct (get_template_options_frame _ _ _ _ _ _ _ Hget) as (? & ? & _ & _ & _ & ?).
    by split_and!. }
  right. destruct build; [|done]. split; [done|].
  destruct (get_template_options_frame _ _ _ _ _ _ _ Hget) as (_ & Ho1 & _).
  assert (objects w2 = objects w) as Ho2.
  { subst w2. destruct opts as [l|]; [destruct (truthy w1 (Some l))|]; by simpl. }
  destruct (add_to_design_spec _ _ _ _ Hadd) as (Hnew & Hobj & Hcomp & _).
  simpl in Hnew, Hobj, Hcomp. rewrite Ho2 in Hnew.
  set (id := (_get_new_qcomponent_id (ext w2)).1) in *.
  assert (objects w0 !! self = Some
            (set_id id {| _name := name; _id := 0;
                          _class_name := _get_unique_class_name cls;
                          options := o; metadata := md; status := "not built";
                          _connector_names := []; _made := false; pins := [] |}))
    as Hself by by rewrite Hobj, lookup_insert_eq.
  rewrite (do_make_unfold _ _ _ Hself) in Hres.
  pose proof (make_entry_object _ _ _ Hself) as Hentry.
  destruct (make_entry_calls _ _ _ Hself) as (_ & _ & Hcomp0).
  destruct (make self (make_entry self w0)) as [[[]|e'] w3] eqn:E; [done|].
  injection Hres as <- <-.
  destruct (Hmake _ _ _ _ _ E Hentry) as (c1 & Hc1 & Hst & Hm & Hid).
  simpl in Hst, Hm, Hid.
  exists self, c1. split_and!; [done | done | | done | done].
  rewrite Hid. apply (Hreg _ _ _ _ _ _ E). rewrite Hcomp0, Hcomp.
  by rewrite lookup_insert_eq.
Qed.

(** X17: a class that keeps the [make] of [QComponent] cannot be
    constructed with [make=True]: the constructor raises, with
    [NotImplementedError] once the component object exists, and that object
    is left with status 'failed'. *)
Theorem base_class_is_not_built {C : Collaborators} (cls : pyclass) (design : PyObj)
    (name : string) (opts component_template : option loc) (w : World Ext) :
  (∀ self w0, make self w0 = QComponent_make self w0) →
  is_design design = true →
  ∃ e w', __init__ cls design name opts true component_template w = (Raised e, w') ∧
          (e = RecursionError ∧ objects w' = objects w ∨
           e = NotImplementedError ∧
           ∃ self c, objects w !! self = None ∧ objects w' !! self = Some c ∧
                     status c = "failed" ∧ _made c = false).
Proof.
  intros Hbase Hdesign.
  destruct (__init__ cls design name opts true component_template w) as [r w'] eqn:Hinit.
  destruct (init_before_build _ _ _ _ _ _ _ _ _ Hinit Hdesign)
    as [(e0 & -> & Hget)|(o & w1 & w2 & md & self & w0 & Hget & Hw2 & Hmd & Hadd & Hres)].
  { destruct (get_template_options_frame _ _ _ _ _ _ _ Hget) as (_ & ? & _ & _ & _ & ->).
    exists RecursionError, w'. split; [done|]. by left. }
  destruct (get_template_options_frame _ _ _ _ _ _ _ Hget) as (_ & Ho1 & _).
  assert (objects w2 = objects w) as Ho2.
  { subst w2. destruct opts as [l|]; [destruct (truthy w1 (Some l))|]; by simpl. }
  destruct (add_to_design_spec _ _ _ _ Hadd) as (Hnew & Hobj & _).
  simpl in Hnew, Hobj. rewrite Ho2 in Hnew.
  assert (is_Some (objects w0 !! self)) as [c0 Hself]
    by (rewrite Hobj, lookup_insert_eq; eauto).
  assert (_made c0 = false) as Hm0.
  { rewrite Hobj, lookup_insert_eq in Hself. by injection Hself as <-. }
  rewrite (do_make_unfold _ _ _ Hself), Hbase in Hres. unfold QComponent_make in Hres.
  injection Hres as -> ->.
  exists NotImplementedError, (make_entry self w0). split; [done|]. right. split; [done|].
  exists self, (set_status "failed" c0).
  split_and!; [done | by apply make_entry_object | done | done].
Qed.

(** ** The pin registry *)

Lemma pins_get_set (d : list (string * Pin)) k p k' :
  pins_get (pins_set d k p) k' = if decide (k = k') then Some p else pins_get d k'.
Proof.
  induction d as [|[k0 p0] d IH]; simpl.
  - by repeat case_decide.
  - repeat (case_decide; simpl; subst); try done; try congruence.
    all: rewrite IH; by repeat case_decide.
Qed.

Lemma pins_get_None (d : list (string * Pin)) k : pins_get d k = None ↔ k ∉ d.*1.
Proof.
  induction d as [|[k0 p0] d IH]; simpl.
  - split; [intros _; apply not_elem_of_nil | done].
  - case_decide as Hk; subst.
    + split; [done|]. intros H. exfalso. apply H. left.
    + rewrite IH. rewrite not_elem_of_cons. naive_solver.
Qed.

Lemma pins_set_set (d : list (string * Pin)) k p1 p2 :
  pins_set (pins_set d k p1) k p2 = pins_set d k p2.
Proof.
  induction d as [|[k0 p0] d IH]; simpl.
  - by rewrite decide_True.
  - case_decide as Hk; simpl; [by rewrite decide_True|].
    rewrite decide_False by done. by rewrite IH.
Qed.

Lemma pins_set_keys (d : list (string * Pin)) k p :
  (pins_set d k p).*1 = if decide (k ∈ d.*1) then d.*1 else d.*1 ++ [k].
Proof.
  induction d as [|[k0 p0] d IH].
  - done.
  - change (((k0, p0) :: d).*1) with (k0 :: d.*1).
    change (pins_set ((k0, p0) :: d) k p)
      with (if decide (k0 = k) then (k0, p) :: d else (k0, p0) :: pins_set d k p).
    destruct (decide (k0 = k)) as [->|Hk].
    + rewrite decide_True by left. done.
    + change (((k0, p0) :: pins_set d k p).*1) with (k0 :: (pins_set d k p).*1).
      rewrite IH. destruct (decide (k ∈ d.*1)) as [Hin|Hin].
      * rewrite decide_True by by right. done.
      * rewrite decide_False; [done|]. rewrite not_elem_of_cons. naive_solver.
Qed.

Lemma add_pin_Normal {Ext} self name pts parent flip chp (w : World Ext) c pin :
  objects w !! self = Some c →
  make_pin pts parent flip chp = Normal pin →
  add_pin self name pts parent flip chp w =
    (Normal (),
     set_objects (<[self := set_pins (pins_set (pins c) name pin) c]> (objects w)) w).
Proof.
  intros Hc Hpin. unfold add_pin, update_object. rewrite Hc, Hpin. do 2 f_equal.
  apply map_eq. intros a. destruct (decide (a = self)) as [->|Hne].
  - by rewrite lookup_alter_eq, lookup_insert_eq, Hc.
  - by rewrite lookup_alter_ne, lookup_insert_ne.
Qed.

(** X18: [get_pin] after [add_pin] under the same name returns the pin
    [make_pin] makes of the arguments; the pins under other names, and the
    pins of the other components, read as before. *)
Theorem add_pin_then_get_pin {Ext} (self : addr) (name : string) (pts : list vec)
    (parent : string) (flip : bool) (chp : string) (w : World Ext)
    (c : QComponent) (pin : Pin) :
  objects w !! self = Some c →
  make_pin pts parent flip chp = Normal pin →
  ∃ w', add_pin self name pts parent flip chp w = (Normal (), w') ∧
        get_pin self name w' = (Normal pin, w') ∧
        (∀ name', name' ≠ name →
           (get_pin self name' w').1 = (get_pin self name' w).1) ∧
        (∀ other name', other ≠ self →
           (get_pin other name' w').1 = (get_pin other name' w).1).
Proof.
  intros Hc Hpin. eexists.
  split; [exact (add_pin_Normal self name pts parent flip chp w c pin Hc Hpin)|].
  unfold get_pin. simpl. rewrite lookup_insert_eq. simpl. split_and!.
  - by rewrite pins_get_set, decide_True.
  - intros name' Hne. rewrite Hc, pins_get_set, decide_False by done.
    by destruct (pins_get (pins c) name').
  - intros other name' Hne. rewrite lookup_insert_ne by done.
    destruct (objects w !! other) as [c'|]; [|done].
    by destruct (pins_get (pins c') name').
Qed.

(** X19: adding a pin under the same name a second time replaces the
    first pin: the outcome is that of the second [add_pin] alone.  A new
    name goes last in [pins], a name already there keeps its place. *)
Theorem add_pin_again_replaces {Ext} (self : addr) (name : string)
    (pts1 pts2 : list vec) (parent1 parent2 : string) (flip1 flip2 : bool)
    (chp1 chp2 : string) (w : World Ext) (c : QComponent) (pin1 pin2 : Pin) :
  objects w !! self = Some c →
  make_pin pts1 parent1 flip1 chp1 = Normal pin1 →
  make_pin pts2 parent2 flip2 chp2 = Normal pin2 →
  ∃ w1 c1, add_pin self name pts1 parent1 flip1 chp1 w = (Normal (), w1) ∧
           objects w1 !! self = Some c1 ∧
           (pins c1).*1 = (if decide (name ∈ (pins c).*1) then (pins c).*1
                           else (pins c).*1 ++ [name]) ∧
           add_pin self name pts2 parent2 flip2 chp2 w1 =
             add_pin self name pts2 parent2 flip2 chp2 w.
Proof.
  intros Hc Hpin1 Hpin2. eexists _, _.
  split; [exact (add_pin_Normal self name pts1 parent1 flip1 chp1 w c pin1 Hc Hpin1)|].
  simpl.
  split; [by rewrite lookup_insert_eq|]. simpl.
  split; [apply pins_set_keys|].
  rewrite (add_pin_Normal self name pts2 _ _ _ w c pin2 Hc Hpin2).
  erewrite add_pin_Normal; [|simpl; by rewrite lookup_insert_eq|done].
  simpl. by rewrite insert_insert_eq, pins_set_set.
Qed.

(** X20: [add_pin] with a number of points other than two raises the
    [AssertionError] of [make_pin] and leaves the state, the pins included,
    as it was. *)
Theorem add_pin_wrong_points {Ext} (self : addr) (name : string) (pts : list vec)
    (parent : string) (flip : bool) (chp : string) (w : World Ext) (c : QComponent) :
  objects w !! self = Some c →
  length pts ≠ 2 →
  add_pin self name pts parent flip chp w = (Raised (AssertionError EmptyString), w).
Proof.
  intros Hc Hlen. unfold add_pin. rewrite Hc.
  by destruct pts as [|p0 [|p1 [|p2 pts]]].
Qed.

(** X21: [get_pin] returns a pin for the names in [pins] and raises
    [KeyError], with the name, for every other name; it leaves the state as
    it is. *)
Theorem get_pin_unknown_name {Ext} (self : addr) (name : string) (w : World Ext)
    (c : QComponent) :
  objects w !! self = Some c →
  (name ∈ (pins c).*1 → ∃ pin, get_pin self name w = (Normal pin, w)) ∧
  (name ∉ (pins c).*1 → get_pin self name w = (Raised (KeyError name), w)).
Proof.
  intros Hc. unfold get_pin. rewrite Hc. split.
  - intros Hin. destruct (pins_get (pins c) name) as [pin|] eqn:E; [eauto|].
    by apply pins_get_None in E.
  - intros Hnin. apply pins_get_None in Hnin. by rewrite Hnin.
Qed.

(** [add_pin] writes to the pins of its component, to nothing else. *)
Lemma add_pin_frame {Ext} (self other : addr) (name : string)
    (pts : list vec) (parent : string) (flip : bool) (chp : string)
    (w w' : World Ext) (r : outcome unit) (c : QComponent) :
  add_pin self name pts parent flip chp w = (r, w') →
  objects w !! other = Some c →
  (∃ c', objects w' !! other = Some c' ∧
         status c' = status c ∧ _made c' = _made c ∧ _id c' = _id c ∧
         _name c' = _name c ∧ _class_name c' = _class_name c ∧
         options c' = options c ∧ metadata c' = metadata c ∧
         (other ≠ self → c' = c)) ∧
  heap w' = heap w ∧ template_options w' = template_options w ∧
  components w' = components w ∧ ext w' = ext w ∧ calls w' = calls w.
Proof.
  unfold add_pin. intros Hadd Hc.
  destruct (objects w !! self) as [cs|] eqn:Hs.
  2:{ injection Hadd as <- <-. split_and!; try done. exists c. by split_and!. }
  destruct (make_pin pts parent flip chp) as [pin|e].
  2:{ injection Hadd as <- <-. split_and!; try done. exists c. by split_and!. }
  injection Hadd as <- <-. simpl. split_and!; try done.
  destruct (decide (other = self)) as [->|Hne].
  - rewrite lookup_alter_eq, Hc. simpl. eexists. split; [done|]. by split_and!.
  - rewrite lookup_alter_ne by done. exists c. by split_and!.
Qed.

(** ** Geometry of a known kind, and of all kinds *)

(** X22: the id the design allocates in the constructor is the id of the
    component from then on, built or not: with it [elements_dict] and
    [elements_table] ask the tables for a kind they know, after the check
    and never returning [None], and with it the next [do_make] of a
    component built by the constructor purges the tables. *)
Theorem component_keeps_its_id {C : Collaborators} (cls : pyclass) (design : PyObj)
    (name : string) (opts component_template : option loc) (build : bool)
    (w w' : World Ext) (self : addr) :
  make_keeps_status →
  __init__ cls design name opts build component_template w = (Normal self, w') →
  ∃ c, objects w' !! self = Some c ∧
       _id c = (_get_new_qcomponent_id (ext w)).1 ∧
       _made c = build ∧
       calls (make_entry self w') =
         calls w' ++ (if build then [CallDeleteComponent (_id c)] else [])
                 ++ [CallMake self] ∧
       ∀ kind, check_element_type kind (ext w') = true →
         elements_dict self kind w' =
           (Normal (Some (get_component_geometry_dict (_id c) kind (ext w'))),
            log_call (CallGetComponentGeometryDict (_id c) kind)
              (log_call (CallCheckElementType kind) w')) ∧
         elements_table self kind w' =
           (Normal (Some (get_component (_id c) kind (ext w'))),
            log_call (CallGetComponent (_id c) kind)
              (log_call (CallCheckElementType kind) w')).
Proof.
  intros Hmake Hinit.
  assert (is_design design = true) as Hdesign.
  { unfold __init__ in Hinit. by destruct (is_design design). }
  destruct (init_before_build _ _ _ _ _ _ _ _ _ Hinit Hdesign)
    as [(e & [=] & _)|(o & w1 & w2 & md & self0 & w0 & Hget & Hw2 & Hmd & Hadd & Hres)].
  destruct (get_template_options_frame _ _ _ _ _ _ _ Hget) as (_ & _ & He1 & _).
  assert (ext w2 = ext w) as He2.
  { subst w2. destruct opts as [l|]; [destruct (truthy w1 (Some l))|]; by simpl. }
  destruct (add_to_design_spec _ _ _ _ Hadd) as (_ & Hobj & _).
  simpl in Hobj. rewrite He2 in Hobj.
  set (id := (_get_new_qcomponent_id (ext w)).1) in *.
  assert (∃ c, objects w' !! self = Some c ∧ _id c = id ∧ _made c = build)
    as (c & Hc & Hid & Hmade).
  { destruct build.
    - assert (is_Some (objects w0 !! self0)) as [c0 Hself]
        by (rewrite Hobj, lookup_insert_eq; eauto).
      assert (_made c0 = false ∧ _id c0 = id) as [Hm0 Hi0].
      { rewrite Hobj, lookup_insert_eq in Hself. by injection Hself as <-. }
      rewrite (do_make_unfold _ _ _ Hself), Hm0 in Hres.
      pose proof (make_entry_object _ _ _ Hself) as Hentry.
      destruct (make self0 (make_entry self0 w0)) as [[[]|e'] w3] eqn:E; [|done].
      injection Hres as -> ->.
      destruct (Hmake _ _ _ _ _ E Hentry) as (c2 & Hc2 & _ & _ & Hid2).
      simpl in Hid2.
      exists (set_status "good" (set_made true c2)).
      split; [exact (make_exit_object true self0 w3 c2 Hc2)|].
      simpl. split; [congruence | done].
    - injection Hres as -> ->. eexists.
      split; [by rewrite Hobj, lookup_insert_eq|]. done. }
  exists c. split_and!; [done | done | done | |].
  - destruct (make_entry_calls self w' c Hc) as (Hcalls & _). by rewrite Hmade in Hcalls.
  - intros kind Hkind. unfold elements_dict, elements_table. simpl.
    by rewrite Hkind, Hc.
Qed.

(** X23: [elements_list] accepts ['all'] without asking the tables,
    where [elements_dict] and [elements_table] return [None] for it when
    the tables know no kind of that name; for any other kind it asks once
    and returns the list, or [None]. *)
Theorem elements_list_all {C : Collaborators} {G : GeometryLists Ext}
    (self : addr) (w : World Ext) (c : QComponent) :
  objects w !! self = Some c →
  elements_list self "all" w =
    (Normal (Some (get_component_geometry_list (_id c) "all" (ext w))), w) ∧
  (check_element_type "all" (ext w) = false →
   (elements_dict self "all" w).1 = Normal None ∧
   (elements_table self "all" w).1 = Normal None) ∧
  ∀ kind, kind ≠ "all" →
    calls (elements_list self kind w).2 = calls w ++ [CallCheckElementType kind] ∧
    (elements_list self kind w).1 =
      if check_element_type kind (ext w)
      then Normal (Some (get_component_geometry_list (_id c) kind (ext w)))
      else Normal None.
Proof.
  intros Hc. split_and!.
  - unfold elements_list. simpl. by rewrite Hc.
  - intros Hall. unfold elements_dict, elements_table. simpl. by rewrite Hall.
  - intros kind Hne. unfold elements_list. rewrite decide_False by done. simpl.
    destruct (check_element_type kind (ext w)); simpl; [|done]. by rewrite Hc.
Qed.

(** X24: [elements_plot] renders the list of all the geometries of the
    component and returns it; the [plot_kw] of the caller never reaches the
    renderer, which is given an empty dictionary. *)
Theorem elements_plot_draws_all {C : Collaborators} {G : GeometryLists Ext}
    (self : addr) (w : World Ext) (c : QComponent) :
  objects w !! self = Some c →
  ∀ ax plot_kw,
    elements_plot self ax plot_kw w =
      (Normal (Some (get_component_geometry_list (_id c) "all" (ext w))),
       set_ext
         (render (Some (get_component_geometry_list (_id c) "all" (ext w))) ax []
            (ext w)) w).
Proof.
  intros Hc ax plot_kw. unfold elements_plot, elements_list. simpl. by rewrite Hc.
Qed.

(** ** Instances of the further properties *)

(** *** The example classes and collaborators meet the assumptions *)

Lemma diamond_mro_consistent : mro_consistent Diamond.cls_C.
Proof.
  intros c Hc. unfold getmro in Hc. simpl in Hc.
  repeat (apply elem_of_cons in Hc as [->|Hc]);
    [..|by apply elem_of_nil in Hc];
    intros x Hx; unfold getmro in Hx; simpl in Hx;
    repeat (apply elem_of_cons in Hx as [->|Hx]);
    try (by apply elem_of_nil in Hx);
    unfold getmro; simpl; set_solver.
Qed.

Lemma add_pins_keep_status (mk : addr → World nat → outcome unit * World nat) :
  (∀ self w, mk self w = Pads.make_pads self w ∨ mk self w = Pads.make_bad self w) →
  make_keeps_status (C := Example.collaborators mk) ∧
  make_keeps_registered (C := Example.collaborators mk).
Proof.
  intros Hmk.
  assert (∀ self w r w', mk self w = (r, w') →
            components w' = components w ∧
            ∀ c, objects w !! self = Some c →
                 ∃ c', objects w' !! self = Some c' ∧ status c' = status c ∧
                       _made c' = _made c ∧ _id c' = _id c) as Hframe.
  { intros self w r w' Hmake.
    assert (∃ n1 p1 q1 f1 c1 n2 p2 q2 f2 c2,
              (r, w') = match add_pin self n1 p1 q1 f1 c1 w with
                        | (Raised e, w1) => (Raised e, w1)
                        | (Normal _, w1) => add_pin self n2 p2 q2 f2 c2 w1
                        end) as (n1&p1&q1&f1&c1&n2&p2&q2&f2&c2&Hrun).
    { destruct (Hmk self w) as [H|H]; rewrite H in Hmake; rewrite <- Hmake;
        unfold Pads.make_pads, Pads.make_bad; by do 10 eexists. }
    destruct (add_pin self n1 p1 q1 f1 c1 w) as [r1 w1] eqn:E1.
    assert (components w1 = components w ∧
            ∀ c, objects w !! self = Some c →
                 ∃ c', objects w1 !! self = Some c' ∧ status c' = status c ∧
                       _made c' = _made c ∧ _id c' = _id c) as [Hc1 Ho1].
    { split.
      - unfold add_pin in E1. destruct (objects w !! self); [|by injection E1 as _ <-].
        destruct (make_pin p1 q1 f1 c1); by injection E1 as _ <-.
      - intros c Hc.
        destruct (add_pin_frame _ _ _ _ _ _ _ _ _ _ c E1 Hc)
          as ((c' & ? & ? & ? & ? & _) & _). by exists c'. }
    destruct r1 as [[]|e]; [|by injection Hrun as -> ->].
    symmetry in Hrun. split.
    - rewrite <- Hc1. unfold add_pin in Hrun.
      destruct (objects w1 !! self); [|by injection Hrun as _ <-].
      destruct (make_pin p2 q2 f2 c2); by injection Hrun as _ <-.
    - intros c Hc. destruct (Ho1 c Hc) as (c1' & Hc1' & Hs1 & Hm1 & Hi1).
      destruct (add_pin_frame _ _ _ _ _ _ _ _ _ _ c1' Hrun Hc1')
        as ((c' & ? & ? & ? & ? & _) & _).
      exists c'. split_and!; [done|congruence..]. }
  split.
  - intros self w r w' c Hmake Hc. by apply (Hframe self w r w' Hmake).
  - intros self w r w' id a Hmake Ha.
    destruct (Hframe self w r w' Hmake) as [Hcomp _].
    rewrite <- Ha. f_equal. exact Hcomp.
Qed.

Lemma make_pads_keeps_status : make_keeps_status (C := Pads.C_pads).
Proof. apply add_pins_keep_status. by left. Qed.

Lemma make_bad_keeps_status : make_keeps_status (C := Pads.C_bad).
Proof. apply add_pins_keep_status. by right. Qed.

Lemma make_bad_keeps_registered : make_keeps_registered (C := Pads.C_bad).
Proof. apply add_pins_keep_status. by right. Qed.

Lemma world1_gather_ok :
  dict_ok (heap Example.world1) (_gather_all_children_options Example.cls).
Proof. refine (bool_decide_unpack _ _). vm_compute. exact I. Qed.

(** *** The further theorems at work *)

Lemma gather_keys_witness :
  (_gather_all_children_options Diamond.cls_C).*1 = ["x"; "y"] ∧
  ("x" ∈ (_gather_all_children_options Diamond.cls_C).*1 ↔
   ∃ c d, c ∈ getmro Diamond.cls_C ∧ own_default_options c = Some d ∧ "x" ∈ d.*1).
Proof.
  split; [reflexivity|].
  apply (gather_keys Diamond.cls_C "x" diamond_mro_consistent).
  intros root [= <-]. reflexivity.
Defined.

Lemma gather_own_class_wins_witness :
  own_default_options Diamond.cls_C = Some [("y", VStr "c")] ∧
  dict_get (_gather_all_children_options Diamond.cls_C) "y" = Some (VStr "c").
Proof.
  split; [reflexivity|].
  apply (gather_own_class_wins Diamond.cls_C [("y", VStr "c")] "y" (VStr "c"));
    [reflexivity | | reflexivity].
  refine (bool_decide_unpack _ _). vm_compute. exact I.
Defined.

Lemma gather_extends_parent_witness :
  _gather_all_children_options Chain.cls_Tagged =
    _gather_all_children_options Chain.cls_BaseQubit ∧
  _gather_all_children_options Chain.cls_TransmonPocket =
    dict_display (_gather_all_children_options Chain.cls_Tagged)
      [("pos_x", VStr "1mm"); ("pad_gap", VStr "30um")].
Proof.
  split.
  - apply (gather_extends_parent Chain.cls_Tagged Chain.cls_BaseQubit
             [Chain.cls_QComponent; Chain.cls_object]);
      [reflexivity | simpl; repeat split; reflexivity
       | intros root [= <-]; reflexivity].
  - apply (gather_extends_parent Chain.cls_TransmonPocket Chain.cls_Tagged
             [Chain.cls_BaseQubit; Chain.cls_QComponent; Chain.cls_object]);
      [reflexivity | simpl; repeat split; reflexivity
       | intros root [= <-]; reflexivity].
Defined.

Lemma unique_class_name_injective_witness :
  Pads.cls_reloaded ≠ Example.cls ∧
  _get_unique_class_name Pads.cls_reloaded = Example.key ∧
  cls_module Pads.cls_reloaded = cls_module Example.cls ∧
  cls_name Pads.cls_reloaded = cls_name Example.cls.
Proof.
  split; [discriminate|]. split; [reflexivity|].
  apply (unique_class_name_injective Pads.cls_reloaded Example.cls);
    reflexivity.
Defined.

Lemma register_explicit_template_witness :
  ∃ w' t,
    _register_class_with_design (C := Example.C_ok) Example.cls Example.key
      (Some 2%positive) Example.world1 = (Normal (), w') ∧
    template_options w' = <[Example.key := t]> (template_options Example.world1) ∧
    (∀ n, read n (heap w') (VRef t) = read n (heap Example.world1) (VRef 2%positive)) ∧
    (∀ y, reach (heap w') t y → heap Example.world1 !! y = None).
Proof.
  destruct (register_explicit_template (C := Example.C_ok) Example.cls Example.key
              2%positive Example.world1 world1_ok)
    as [Hreturns Hstored]; [vm_compute; reflexivity..|].
  destruct (Hreturns 2) as [w' Hw']; [vm_compute; eauto | simpl; lia |].
  destruct (Hstored w' Hw') as (t & Ht & Hread & Hnew).
  exists w', t. by split_and!.
Defined.

Lemma options_are_new_objects_witness :
  read 2 (heap Example.looked_up) (VRef 9%positive) =
    Some (TDict [("pad_gap", TStr "5um"); ("pads", TDict [("loc_W", TStr "-1")])]) ∧
  ∀ y, reach (heap Example.looked_up) 9%positive y →
       heap Example.world1 !! y = None ∧ is_Some (heap Example.looked_up !! y).
Proof.
  split; [vm_compute; reflexivity|].
  apply (options_are_new_objects (C := Example.C_ok) Example.cls (Some 2%positive)
           None None Example.world1 Example.looked_up 9%positive
           (shallow_Dict_allocates _) (shallow_Dict_copies _) world1_ok
           world1_gather_ok).
  vm_compute. reflexivity.
Defined.

Lemma instances_share_nothing_witness :
  get_template_options (C := Pads.C_pads) Example.cls None None None
    Example.looked_up = (Normal 12%positive, Pads.looked_up_twice) ∧
  ∀ y, reach (heap Pads.looked_up_twice) 9%positive y →
       reach (heap Pads.looked_up_twice) 12%positive y → False.
Proof.
  assert (get_template_options (C := Pads.C_pads) Example.cls None None None
            Example.looked_up = (Normal 12%positive, Pads.looked_up_twice)) as Hget2
    by (vm_compute; reflexivity).
  split; [exact Hget2|].
  apply (instances_share_nothing (C := Pads.C_pads) Example.cls Example.cls
           (Some 2%positive) None None None None None
           Example.world1 Example.looked_up Pads.looked_up_twice 9%positive 12%positive
           (shallow_Dict_allocates _) (shallow_Dict_copies _) world1_ok
           world1_gather_ok world1_gather_ok); [vm_compute; reflexivity | exact Hget2].
Defined.

Lemma reloaded_gather_ok :
  dict_ok (heap Example.world1) (_gather_all_children_options Pads.cls_reloaded).
Proof. refine (bool_decide_unpack _ _). vm_compute. exact I. Qed.

Lemma instances_read_alike_witness :
  dict_get (_gather_all_children_options Pads.cls_reloaded) "pos_x" = Some (VStr "3mm") ∧
  read 2 (heap Pads.looked_up_twice) (VRef 12%positive) =
    Some (TDict [("pad_gap", TStr "5um"); ("pads", TDict [("loc_W", TStr "-1")])]) ∧
  template_options Pads.looked_up_twice = template_options Example.looked_up ∧
  ∀ n, read n (heap Pads.looked_up_twice) (VRef 12%positive) =
       read n (heap Pads.looked_up_twice) (VRef 9%positive).
Proof.
  split; [reflexivity|]. split; [vm_compute; reflexivity|].
  apply (instances_read_alike (C := Pads.C_pads) Example.cls Pads.cls_reloaded
           (Some 2%positive) (Some 5%positive) None None None None
           Example.world1 Example.looked_up Pads.looked_up_twice 9%positive 12%positive
           (shallow_Dict_allocates _) (shallow_Dict_copies _) world1_ok
           world1_gather_ok reloaded_gather_ok); vm_compute; reflexivity.
Defined.

Lemma failed_first_build_is_not_purged_witness :
  do_make (C := Pads.C_bad) 1%positive Pads.created =
    (Raised (AssertionError EmptyString), Pads.failed) ∧
  (pins <$> objects Pads.failed !! 1%positive) ≠ Some [] ∧
  ∃ c1, objects Pads.failed !! 1%positive = Some c1 ∧
        status c1 = "failed" ∧ _made c1 = false ∧
        calls (make_entry (C := Pads.C_bad) 1%positive Pads.failed) =
          calls Pads.failed ++ [CallMake 1%positive] ∧
        ext (make_entry (C := Pads.C_bad) 1%positive Pads.failed) = ext Pads.failed.
Proof.
  assert (do_make (C := Pads.C_bad) 1%positive Pads.created =
            (Raised (AssertionError EmptyString), Pads.failed)) as Hdo
    by (vm_compute; reflexivity).
  split; [exact Hdo|]. split; [vm_compute; discriminate|].
  apply (failed_first_build_is_not_purged (C := Pads.C_bad) 1%positive Pads.created
           Pads.failed (Example.q1 "not built" false)
           (AssertionError EmptyString) make_bad_keeps_status);
    [vm_compute; reflexivity | reflexivity | exact Hdo].
Defined.

Lemma build_then_rebuild_witness :
  do_make (C := Pads.C_pads) 1%positive Pads.created = (Normal (), Pads.built) ∧
  ∃ c1, objects Pads.built !! 1%positive = Some c1 ∧
        status c1 = "good" ∧ _made c1 = true ∧ _id c1 = 1%Z ∧
        calls (make_entry (C := Pads.C_pads) 1%positive Pads.built) =
          calls Pads.built ++ [CallDeleteComponent 1; CallMake 1%positive] ∧
        ext (make_entry (C := Pads.C_pads) 1%positive Pads.built) =
          delete_component (Collaborators := Pads.C_pads) 1 (ext Pads.built).
Proof.
  assert (do_make (C := Pads.C_pads) 1%positive Pads.created = (Normal (), Pads.built))
    as Hdo by (vm_compute; reflexivity).
  split; [exact Hdo|].
  apply (build_then_rebuild (C := Pads.C_pads) 1%positive Pads.created
           Pads.built (Example.q1 "not built" false) make_pads_keeps_status);
    [vm_compute; reflexivity | exact Hdo].
Defined.

Lemma init_registers_witness :
  objects Example.world1 !! 1%positive = None ∧
  (∀ a c, objects Example.world1 !! a = Some c → objects Pads.created !! a = Some c) ∧
  ∃ c, objects Pads.created !! 1%positive = Some c ∧
       components Pads.created = <[_id c := 1%positive]> (components Example.world1) ∧
       (_id c, ext Pads.created) =
         _get_new_qcomponent_id (Collaborators := Pads.C_pads) (ext Example.world1) ∧
       calls Pads.created = calls Example.world1 ++ [CallGetNewId] ∧
       _name c = "Q1" ∧ _class_name c = _get_unique_class_name Example.cls ∧
       status c = "not built" ∧ _made c = false ∧ pins c = [] ∧
       heap Pads.created !! metadata c = Some [].
Proof.
  apply (init_registers (C := Pads.C_pads) Example.cls Example.DesignObj "Q1"
           None None Example.world1 Pads.created 1%positive).
  vm_compute. reflexivity.
Defined.

Lemma init_without_overrides_witness :
  truthy Example.world1 (Some 4%positive) = false ∧
  ∃ w' c t,
    __init__ (C := Example.C_ok) Example.cls Example.DesignObj "Q1"
      (Some 4%positive) false None Example.world1 = (Normal 1%positive, w') ∧
    objects w' !! 1%positive = Some c ∧
    template_options w' !! _get_unique_class_name Example.cls = Some t ∧
    ∀ n, read n (heap w') (VRef (options c)) = read n (heap w') (VRef t).
Proof.
  assert (truthy Example.world1 (Some 4%positive) = false) as Hfalsy
    by (vm_compute; reflexivity).
  split; [exact Hfalsy|].
  destruct (__init__ (C := Example.C_ok) Example.cls Example.DesignObj "Q1"
              (Some 4%positive) false None Example.world1) as [r w'] eqn:Hinit.
  assert (r = Normal 1%positive) as ->.
  { apply (f_equal fst) in Hinit. vm_compute in Hinit. by subst r. }
  destruct (init_without_overrides (C := Example.C_ok) Example.cls Example.DesignObj
              "Q1" (Some 4%positive) None Example.world1 w' 1%positive
              (shallow_Dict_allocates _) (shallow_Dict_copies _) world1_ok
              world1_gather_ok Hfalsy) as (c & t & Hc & Ht & Hread); [|done|].
  { intros l [= <-]. vm_compute. eauto. }
  exists w', c, t. by split_and!.
Defined.

Lemma init_leaves_dictionaries_witness :
  truthy Example.world1 (Some 5%positive) = true ∧
  heap_extends (heap Example.world1) (heap Example.created) ∧
  template_options Example.world1 ⊆ template_options Example.created.
Proof.
  split; [vm_compute; reflexivity|].
  apply (init_leaves_dictionaries (C := Example.C_base) Example.cls Example.DesignObj
           "Q1" (Some 5%positive) None Example.world1 Example.created 1%positive
           (shallow_Dict_allocates _) (shallow_Dict_copies _) (plain_update_local _)
           world1_ok world1_gather_ok).
  vm_compute. reflexivity.
Defined.

Lemma init_failure_leaves_witness :
  ∃ w',
    __init__ (C := Pads.C_bad) Example.cls Example.DesignObj "Q1" None true None
      Example.world1 = (Raised (AssertionError EmptyString), w') ∧
    ∃ self c, objects Example.world1 !! self = None ∧ objects w' !! self = Some c ∧
              components w' !! _id c = Some self ∧
              status c = "failed" ∧ _made c = false.
Proof.
  destruct (__init__ (C := Pads.C_bad) Example.cls Example.DesignObj "Q1" None true
              None Example.world1) as [r w'] eqn:Hinit.
  assert (r = Raised (AssertionError EmptyString)) as ->.
  { apply (f_equal fst) in Hinit. vm_compute in Hinit. by subst r. }
  exists w'. split; [done|].
  destruct (init_failure_leaves (C := Pads.C_bad) Example.cls Example.DesignObj "Q1"
              None true None Example.world1 w' _ make_bad_keeps_status
              make_bad_keeps_registered Hinit)
    as [[Hd _]|[[He _]|[_ Hleft]]]; [discriminate Hd | discriminate He | exact Hleft].
Defined.

Lemma base_class_is_not_built_witness :
  ∃ e w',
    __init__ (C := Example.C_base) Example.cls Example.DesignObj "Q1"
      (Some 5%positive) true None Example.world1 = (Raised e, w') ∧
    (e = RecursionError ∧ objects w' = objects Example.world1 ∨
     e = NotImplementedError ∧
     ∃ self c, objects Example.world1 !! self = None ∧ objects w' !! self = Some c ∧
               status c = "failed" ∧ _made c = false).
Proof.
  apply (base_class_is_not_built (C := Example.C_base) Example.cls Example.DesignObj
           "Q1" (Some 5%positive) None Example.world1); reflexivity.
Defined.

Lemma add_pin_then_get_pin_witness :
  make_pin [(0, 0); (2, 0)]%float "Q1" false "main" = Normal Pads.pin_a ∧
  ∃ w',
    add_pin 1%positive "a" [(0, 0); (2, 0)]%float "Q1" false "main" Pads.created
      = (Normal (), w') ∧
    get_pin 1%positive "a" w' = (Normal Pads.pin_a, w') ∧
    (∀ name', name' ≠ "a" →
       (get_pin 1%positive name' w').1 = (get_pin 1%positive name' Pads.created).1) ∧
    (∀ other name', other ≠ 1%positive →
       (get_pin other name' w').1 = (get_pin other name' Pads.created).1).
Proof.
  assert (make_pin [(0, 0); (2, 0)]%float "Q1" false "main" = Normal Pads.pin_a)
    as Hpin by reflexivity.
  split; [exact Hpin|].
  apply (add_pin_then_get_pin 1%positive "a" [(0, 0); (2, 0)]%float "Q1" false
           "main" Pads.created (Example.q1 "not built" false) Pads.pin_a);
    [vm_compute; reflexivity | exact Hpin].
Defined.

Lemma add_pin_again_replaces_witness :
  ∃ w1 c1,
    add_pin 1%positive "a" [(0, 0); (2, 0)]%float "Q1" false "main" Pads.built
      = (Normal (), w1) ∧
    objects w1 !! 1%positive = Some c1 ∧
    (pins c1).*1 = ["a"; "b"] ∧
    add_pin 1%positive "a" [(0, 1); (2, 1)]%float "Q1" true "main" w1 =
      add_pin 1%positive "a" [(0, 1); (2, 1)]%float "Q1" true "main" Pads.built.
Proof.
  assert (is_Some (objects Pads.built !! 1%positive)) as [c Hc]
    by (vm_compute; eauto).
  assert ((pins c).*1 = ["a"; "b"]) as Hkeys.
  { assert (Some ((pins c).*1) = Some ["a"; "b"]) as [= ->]; [|done].
    change (Some (pins c).*1) with ((λ x, (pins x).*1) <$> Some c).
    rewrite <- Hc. vm_compute. reflexivity. }
  destruct (add_pin_again_replaces 1%positive "a" [(0, 0); (2, 0)]%float
              [(0, 1); (2, 1)]%float "Q1" "Q1" false true "main" "main"
              Pads.built c _ _ Hc eq_refl eq_refl) as (w1 & c1 & Hadd & Hc1 & Hk & Heq).
  exists w1, c1. rewrite Hkeys in Hk. by split_and!.
Defined.

Lemma add_pin_wrong_points_witness :
  add_pin 1%positive "b" [(0, 1); (2, 1); (3, 1)]%float "Q1" false "main" Pads.created
    = (Raised (AssertionError EmptyString), Pads.created).
Proof.
  apply (add_pin_wrong_points 1%positive "b" [(0, 1); (2, 1); (3, 1)]%float "Q1"
           false "main" Pads.created (Example.q1 "not built" false));
    [vm_compute; reflexivity | simpl; lia].
Defined.

Lemma get_pin_unknown_name_witness :
  get_pin 1%positive "a" Pads.created = (Raised (KeyError "a"), Pads.created) ∧
  ∃ pin, get_pin 1%positive "a" Pads.failed = (Normal pin, Pads.failed).
Proof.
  split.
  - apply (get_pin_unknown_name 1%positive "a" Pads.created
             (Example.q1 "not built" false)); [vm_compute; reflexivity|].
    apply not_elem_of_nil.
  - assert (is_Some (objects Pads.failed !! 1%positive)) as [c Hc]
      by (vm_compute; eauto).
    apply (get_pin_unknown_name 1%positive "a" Pads.failed c Hc).
    assert (Some ((pins c).*1) = Some ["a"]) as [= ->]; [|left].
    change (Some (pins c).*1) with ((λ x, (pins x).*1) <$> Some c).
    rewrite <- Hc. vm_compute. reflexivity.
Defined.

Lemma component_keeps_its_id_witness :
  __init__ (C := Example.C_ok) Example.cls Example.DesignObj "Q1"
    (Some 5%positive) true None Example.world1 = (Normal 1%positive, Example.built) ∧
  ∃ c, objects Example.built !! 1%positive = Some c ∧
       _id c = 1%Z ∧ _made c = true ∧
       calls (make_entry (C := Example.C_ok) 1%positive Example.built) =
         calls Example.built ++ [CallDeleteComponent (_id c)] ++ [CallMake 1%positive] ∧
       ∀ kind,
         check_element_type (Collaborators := Example.C_ok) kind (ext Example.built)
           = true →
         elements_dict (C := Example.C_ok) 1%positive kind Example.built =
           (Normal (Some (get_component_geometry_dict (Collaborators := Example.C_ok)
                            (_id c) kind (ext Example.built))),
            log_call (CallGetComponentGeometryDict (_id c) kind)
              (log_call (CallCheckElementType kind) Example.built)) ∧
         elements_table (C := Example.C_ok) 1%positive kind Example.built =
           (Normal (Some (get_component (Collaborators := Example.C_ok)
                            (_id c) kind (ext Example.built))),
            log_call (CallGetComponent (_id c) kind)
              (log_call (CallCheckElementType kind) Example.built)).
Proof.
  assert (__init__ (C := Example.C_ok) Example.cls Example.DesignObj "Q1"
            (Some 5%positive) true None Example.world1
          = (Normal 1%positive, Example.built)) as Hinit by (vm_compute; reflexivity).
  split; [exact Hinit|].
  exact (component_keeps_its_id (C := Example.C_ok) _ _ _ _ _ true _ _ _
           make_ok_keeps_status Hinit).
Defined.

Lemma elements_list_all_witness :
  elements_list (C := Example.C_ok) (G := Pads.lists) 1%positive "all" Example.built =
    (Normal (Some ["all"]), Example.built) ∧
  (elements_dict (C := Example.C_ok) 1%positive "all" Example.built).1 = Normal None ∧
  (elements_table (C := Example.C_ok) 1%positive "all" Example.built).1 = Normal None.
Proof.
  destruct (elements_list_all (C := Example.C_ok) (G := Pads.lists) 1%positive
              Example.built
              (Example.q1 "good" true)) as (Hall & Hnone & _);
    [vm_compute; reflexivity|].
  split; [exact Hall|]. by apply Hnone.
Defined.

Lemma elements_plot_draws_all_witness :
  elements_plot (C := Example.C_ok) (G := Pads.lists) 1%positive None
    (Some [("color", VStr "red")]) Example.built
  = (Normal (Some ["all"]), set_ext (S (ext Example.built)) Example.built) ∧
  ∀ ax plot_kw,
    elements_plot (C := Example.C_ok) (G := Pads.lists) 1%positive ax plot_kw
      Example.built
    = (Normal (Some ["all"]), set_ext (S (ext Example.built)) Example.built).
Proof.
  assert (∀ ax plot_kw,
            elements_plot (C := Example.C_ok) (G := Pads.lists) 1%positive ax plot_kw
              Example.built
            = (Normal (Some ["all"]), set_ext (S (ext Example.built)) Example.built))
    as Hplot.
  { intros ax plot_kw.
    rewrite (elements_plot_draws_all (C := Example.C_ok) (G := Pads.lists) 1%positive
               Example.built (Example.q1 "good" true)) by (vm_compute; reflexivity).
    vm_compute. reflexivity. }
  split; [apply Hplot | exact Hplot].
Defined.
